(** * ADesigner: the water-transport simulation and control core

    A shallow embedding of the simulation loop of [src/App.tsx] and of its
    canvas variant [src/unnamed/part_000], with the data model of
    [src/types.ts].

    Numbers.  A JavaScript [number] is modelled as an exact canonical
    rational ([Qc]): [+ - * /] are the field operations, comparisons are the
    rational order, and equality is Leibniz equality.  Rounding, infinities
    and NaN are outside the model: where a double is not the exact value (a
    time reached by repeated additions of 0.1, the remainder by a period
    that is not a double) the code and the model can fall on different
    sides of a comparison, so nothing is stated that holds by exactness
    alone, such as the time being a multiple of the tick or a waveform
    repeating after one period.  Division is total ([x / 0 = 0]); the
    divisors met in the code are the constants [DT], [10] and [100], the
    floored frequency and the tank area, of which only the last can be zero
    in the model.

    [Math.sin], [Math.sqrt], [Math.PI] and [Math.random] do not live in the
    rationals; they are taken as an interface ([JSMath]).  [Math.random] is
    the sequence of its successive results, and the store counts the calls.

    React.  [useState] values are captured by the closure of the render that
    installed the interval; a setter call is recorded and only takes effect
    when the component renders again.  [useRef] cells and the fields of the
    plan objects are mutable and written in place. *)

From Stdlib Require Import QArith Qcanon Qround Qabs Qcabs ZArith List Lia Lqa Bool String.
From Stdlib Require Import Permutation Sorted.
Import ListNotations.

Open Scope Qc_scope.

(** ** JavaScript numbers *)

Module JS.

Definition num (q : Q) : Qc := Q2Qc q.

Definition of_nat (n : nat) : Qc := Q2Qc (inject_Z (Z.of_nat n)).

(** [x < y], [x > y], [x >= y], [x === y] on numbers. *)
Definition ltb (x y : Qc) : bool :=
  match x ?= y with Lt => true | _ => false end.

Definition gtb (x y : Qc) : bool := ltb y x.

Definition geb (x y : Qc) : bool :=
  match x ?= y with Lt => false | _ => true end.

Definition eqb (x y : Qc) : bool :=
  match x ?= y with Eq => true | _ => false end.

Definition Math_max (x y : Qc) : Qc := if ltb x y then y else x.

Definition Math_min (x y : Qc) : Qc := if ltb y x then y else x.

Definition Math_abs (x : Qc) : Qc := if ltb x 0 then - x else x.

Definition Math_sign (x : Qc) : Qc :=
  match x ?= 0 with Lt => num (-1) | Eq => 0 | Gt => 1 end.

Definition Math_floor (x : Qc) : Qc := Q2Qc (inject_Z (Qfloor x)).

(** [Math.round] rounds half up. *)
Definition Math_round (x : Qc) : Qc := Math_floor (x + num 0.5).

(** The integer part, towards zero. *)
Definition trunc (x : Qc) : Z := Z.quot (Qnum x) (Zpos (Qden x)).

(** [a % b]: the remainder has the sign of the dividend. *)
Definition rem (a b : Qc) : Qc := a - b * Q2Qc (inject_Z (trunc (a / b))).

(** [x || d] on a number: [0] is falsy. *)
Definition or_else (x d : Qc) : Qc := if eqb x 0 then d else x.

(** [x || d] on a possibly missing number ([undefined] is falsy too). *)
Definition opt_or_else (x : option Qc) (d : Qc) : Qc :=
  match x with
  | Some v => or_else v d
  | None => d
  end.

(** A non-negative integral number as an array length or index. *)
Definition to_nat (x : Qc) : nat := Z.to_nat (Qfloor x).

End JS.

Import JS.

(** The part of the JavaScript library that leaves the rationals. *)
Class JSMath := {
  Math_PI : Qc;
  Math_sin : Qc -> Qc;
  Math_sqrt : Qc -> Qc;
  (** the result of the [k]-th call of [Math.random()] *)
  Math_random : nat -> Qc
}.

(** A rational instance, to run the model on concrete inputs: [Math.PI] to
    fifteen decimals, the Taylor polynomial of degree five for the sine, six
    Newton steps for the square root, and a fixed sequence of draws in
    [[0, 1)]. *)
Definition newton (x : Qc) (n : nat) : Qc :=
  Nat.iter n (fun y => (y + x / y) / Q2Qc 2) (x + 1).

Definition rationalMath : JSMath :=
  {| Math_PI := Q2Qc 3.141592653589793;
     Math_sin := fun x => x - x * x * x / Q2Qc 6
                          + x * x * x * x * x / Q2Qc 120;
     Math_sqrt := fun x => newton x 6;
     Math_random := fun k => of_nat ((k * 7 + 3) mod 10) / Q2Qc 10 |}.

(** ** src/types.ts *)

Inductive ControlAlgorithm := PID | SMITH | MPC.

Inductive ParadigmType := TRADITIONAL | IMPROVED | MODERN.

(** The display strings (name, description, costs, resilience) are not read
    by the simulation and are left out. *)
Record DesignParadigm := {
  ptype : ParadigmType;
  tankArea : Qc;
  algorithm : ControlAlgorithm
}.

Record FaultConfig := {
  active : bool;
  value : Qc
}.

Record FaultState := {
  leakage : FaultConfig;
  pumpEfficiency : FaultConfig;
  sensorDrift : FaultConfig
}.

Inductive DisturbanceType :=
  | CONSTANT | STEP | RAMP | SINE | SQUARE
  | TRIANGLE | SAWTOOTH | PULSE | NOISE
  | RANDOM_WALK | BURST.

Record DisturbanceConfig := {
  type : DisturbanceType;
  base : Qc;
  amplitude : Qc;
  frequency : Qc;
  d_active : bool
}.

Inductive ActionType := CHANGE_DISTURBANCE | CHANGE_SETPOINT.

Inductive PlanStatus := pending | active_ | completed.

(** [payload] is declared [DisturbanceConfig | number]; [addPlan], the only
    place that builds a plan, always stores a copy of the draft
    [DisturbanceConfig], and [executePlan] casts to it. *)
Record PlanStep := {
  id : string;
  triggerTime : Qc;
  actionType : ActionType;
  payload : DisturbanceConfig;
  status : PlanStatus
}.

Definition set_status (s : PlanStatus) (p : PlanStep) : PlanStep :=
  {| id := id p; triggerTime := triggerTime p; actionType := actionType p;
     payload := payload p; status := s |}.

Definition is_pending (p : PlanStep) : bool :=
  match status p with pending => true | _ => false end.

(** One telemetry record of the history. *)
Record ChartData := {
  t : Qc;
  level : Qc;
  target : Qc;
  flowIn : Qc;
  flowOut : Qc
}.

(** ** Code with mutable state

    A computation over a store [S]: it returns a value and the store it
    leaves behind. *)

Definition State (S A : Type) : Type := S -> A * S.

Definition ret {S A : Type} (a : A) : State S A := fun s => (a, s).

Definition bind {S A B : Type} (m : State S A) (f : A -> State S B)
  : State S B :=
  fun s => f (fst (m s)) (snd (m s)).

Definition gets {S A : Type} (f : S -> A) : State S A := fun s => (f s, s).

Definition modify {S : Type} (f : S -> S) : State S unit :=
  fun s => (tt, f s).

Notation "x <- m ;; k" := (bind m (fun x => k))
  (at level 61, m at next level, right associativity).
Notation "m ;;; k" := (bind m (fun _ => k))
  (at level 61, right associativity).

(** ** src/App.tsx *)

Module App.

Definition DT : Qc := num 0.1.
Definition PIPE_DELAY_SECONDS : Qc := num 5.0.
Definition BUFFER_SIZE : Qc := Math_round (PIPE_DELAY_SECONDS / DT).
Definition HISTORY_SECONDS : Qc := num 60.
Definition MAX_HISTORY : Qc := Math_round (HISTORY_SECONDS / DT).

Definition PARADIGMS : list DesignParadigm :=
  [ {| ptype := TRADITIONAL; tankArea := num 200.0; algorithm := PID |};
    {| ptype := IMPROVED; tankArea := num 80.0; algorithm := SMITH |};
    {| ptype := MODERN; tankArea := num 15.0; algorithm := MPC |} ].

(** The [useRef] cells of the component and the plan objects, all written in
    place, with the number of [Math.random()] calls made so far. *)
Record Store := {
  pipeBuffer : list Qc;
  tankLevel : Qc;
  modelLevel : Qc;       (* smithStateRef.current.modelLevel *)
  delayedLevel : Qc;     (* smithStateRef.current.delayedLevel *)
  integral : Qc;
  lastError : Qc;
  lastOut : Qc;          (* mpcStateRef.current.lastOut *)
  plans : list PlanStep;
  randomCalls : nat
}.

Definition set_pipeBuffer (v : list Qc) (s : Store) : Store :=
  {| pipeBuffer := v; tankLevel := tankLevel s; modelLevel := modelLevel s;
     delayedLevel := delayedLevel s; integral := integral s;
     lastError := lastError s; lastOut := lastOut s; plans := plans s;
     randomCalls := randomCalls s |}.

Definition set_tankLevel (v : Qc) (s : Store) : Store :=
  {| pipeBuffer := pipeBuffer s; tankLevel := v; modelLevel := modelLevel s;
     delayedLevel := delayedLevel s; integral := integral s;
     lastError := lastError s; lastOut := lastOut s; plans := plans s;
     randomCalls := randomCalls s |}.

Definition set_modelLevel (v : Qc) (s : Store) : Store :=
  {| pipeBuffer := pipeBuffer s; tankLevel := tankLevel s; modelLevel := v;
     delayedLevel := delayedLevel s; integral := integral s;
     lastError := lastError s; lastOut := lastOut s; plans := plans s;
     randomCalls := randomCalls s |}.

Definition set_integral (v : Qc) (s : Store) : Store :=
  {| pipeBuffer := pipeBuffer s; tankLevel := tankLevel s;
     modelLevel := modelLevel s; delayedLevel := delayedLevel s;
     integral := v; lastError := lastError s; lastOut := lastOut s;
     plans := plans s; randomCalls := randomCalls s |}.

Definition set_lastError (v : Qc) (s : Store) : Store :=
  {| pipeBuffer := pipeBuffer s; tankLevel := tankLevel s;
     modelLevel := modelLevel s; delayedLevel := delayedLevel s;
     integral := integral s; lastError := v; lastOut := lastOut s;
     plans := plans s; randomCalls := randomCalls s |}.

Definition set_lastOut (v : Qc) (s : Store) : Store :=
  {| pipeBuffer := pipeBuffer s; tankLevel := tankLevel s;
     modelLevel := modelLevel s; delayedLevel := delayedLevel s;
     integral := integral s; lastError := lastError s; lastOut := v;
     plans := plans s; randomCalls := randomCalls s |}.

Definition set_plans (v : list PlanStep) (s : Store) : Store :=
  {| pipeBuffer := pipeBuffer s; tankLevel := tankLevel s;
     modelLevel := modelLevel s; delayedLevel := delayedLevel s;
     integral := integral s; lastError := lastError s; lastOut := lastOut s;
     plans := v; randomCalls := randomCalls s |}.

Definition set_randomCalls (v : nat) (s : Store) : Store :=
  {| pipeBuffer := pipeBuffer s; tankLevel := tankLevel s;
     modelLevel := modelLevel s; delayedLevel := delayedLevel s;
     integral := integral s; lastError := lastError s; lastOut := lastOut s;
     plans := plans s; randomCalls := v |}.

(** Code that reads and writes the store. *)
Definition M : Type -> Type := State Store.

(** *** The trend chart (the coordinates only; the drawing is left out) *)

Module TrendChart.

Record Dimensions := {
  width : Qc;
  height : Qc
}.

Section Props.

Variable dimensions : Dimensions.

(** The last point of a history that is not empty. *)
Variable lastPoint : ChartData.

Definition mLeft : Qc := num 50.
Definition mRight : Qc := num 50.
Definition mTop : Qc := num 30.
Definition mBottom : Qc := num 30.
Definition chartW : Qc := width dimensions - mLeft - mRight.
Definition chartH : Qc := height dimensions - mTop - mBottom.

Definition FLOW_MAX : Qc := num 250.
Definition LEVEL_MAX : Qc := num 350.

Definition currentTime : Qc := t lastPoint.
Definition VIEW_WINDOW_S : Qc := num 45.
Definition FUTURE_RATIO : Qc := num 0.25.
Definition tEnd : Qc := currentTime + VIEW_WINDOW_S * FUTURE_RATIO.
Definition tStart : Qc := tEnd - VIEW_WINDOW_S.

Definition getX (t0 : Qc) : Qc :=
  mLeft + (t0 - tStart) / (tEnd - tStart) * chartW.

Definition getYFlow (val : Qc) : Qc :=
  mTop + chartH - Math_max 0 (Math_min FLOW_MAX val) / FLOW_MAX * chartH.

Definition getYLevel (val : Qc) : Qc :=
  mTop + chartH - Math_max 0 (Math_min LEVEL_MAX val) / LEVEL_MAX * chartH.

(** [data.filter(d => d.t >= tStart - 2 && d.t <= tEnd + 2)] *)
Definition visibleData (data : list ChartData) : list ChartData :=
  filter (fun d => geb (t d) (tStart - num 2) && geb (tEnd + num 2) (t d))
         data.

Definition xNow : Qc := getX currentTime.

End Props.

End TrendChart.

Section WithMath.

Context {math : JSMath}.

Definition random : M Qc :=
  fun s => (Math_random (randomCalls s), set_randomCalls (S (randomCalls s)) s).

Definition getDisturbanceValue (t : Qc) (config : DisturbanceConfig) : M Qc :=
  let omega := num 2 * Math_PI * frequency config in
  let period := 1 / Math_max (num 0.001) (frequency config) in
  let localT := rem t period in
  let base := base config in
  let amplitude := amplitude config in
  match type config with
  | CONSTANT => ret base
  | STEP => ret (if ltb localT (period / num 2) then base else base + amplitude)
  | RAMP => ret (base + amplitude * (localT / period))
  | SINE => ret (base + amplitude * Math_sin (omega * t))
  | SQUARE => ret (base + amplitude * Math_sign (Math_sin (omega * t)))
  | TRIANGLE =>
      ret (base + amplitude
                  * (num 2 * Math_abs (num 2 * (localT / period) - 1) - 1))
  | SAWTOOTH => ret (base + amplitude * (num 2 * (localT / period) - 1))
  | PULSE =>
      ret (if ltb localT (period * num 0.1) then base + amplitude else base)
  | NOISE =>
      r <- random ;;
      ret (base + (r - num 0.5) * amplitude)
  | RANDOM_WALK =>
      r <- random ;;
      ret (base + Math_sin (t * num 0.1) * amplitude + (r - num 0.5) * num 5)
  | BURST =>
      ret (if gtb (rem t (num 20)) (num 18) then base + amplitude * num 2
           else base)
  end.

(** The [useState] values read by the simulation. *)
Record ReactState := {
  time : Qc;
  isRunning : bool;
  history : list ChartData;
  deployedParadigm : DesignParadigm;
  activeDemandPattern : DisturbanceConfig;
  activeSetpointPattern : DisturbanceConfig;
  faults : FaultState
}.

(** State setters called inside a tick; they do not change what the running
    closure sees.  [handleSendMessage] posts a notice to the chat assistant,
    which is outside the simulation; only the call is recorded. *)
Inductive Call :=
  | setActiveDemandPattern (c : DisturbanceConfig)
  | setActiveSetpointPattern (c : DisturbanceConfig)
  | handleSendMessage (about : ActionType).

Definition executePlan (plan : PlanStep) : list Call :=
  match actionType plan with
  | CHANGE_DISTURBANCE =>
      [setActiveDemandPattern (payload plan);
       handleSendMessage CHANGE_DISTURBANCE]
  | CHANGE_SETPOINT =>
      [setActiveSetpointPattern (payload plan);
       handleSendMessage CHANGE_SETPOINT]
  end.

(** [plans.forEach]: the status is written on the plan object itself. *)
Fixpoint checkPlans (nextT : Qc) (ps : list PlanStep)
  : list PlanStep * list Call :=
  match ps with
  | [] => ([], [])
  | plan :: rest =>
      let r := checkPlans nextT rest in
      if is_pending plan && geb nextT (triggerTime plan)
      then (set_status completed plan :: fst r, executePlan plan ++ snd r)
      else (plan :: fst r, snd r)
  end.

Section Closure.

(** The render whose closure the installed interval runs in. *)
Variable cl : ReactState.

(** 1. Physics *)
Definition updatePhysics (pumpInflow demandOutflow : Qc) : M Qc :=
  buffer <- gets pipeBuffer ;;
  (* buffer.shift() || 0 *)
  let tankInflow := opt_or_else (hd_error buffer) 0 in
  modify (set_pipeBuffer (tl buffer ++ [pumpInflow])) ;;;
  let area := tankArea (deployedParadigm cl) in
  let netFlow := tankInflow - demandOutflow in
  h <- gets tankLevel ;;
  let netFlow :=
    if active (leakage (faults cl))
    then netFlow - value (leakage (faults cl)) / num 10
                   * Math_sqrt (Math_max 0 h)
    else netFlow in
  let dLevel := netFlow * DT / area in
  modify (set_tankLevel (Math_max 0 (h + dLevel))) ;;;
  ret tankInflow.

(** The look-ahead loop of the MPC branch, [i] running up to the horizon;
    [output] is still [0] when the loop reads it. *)
Fixpoint lookahead (steps i : nat) (buffer : list Qc) (output : Qc)
  (predictedLevel : Qc) : M Qc :=
  match steps with
  | O => ret predictedLevel
  | S steps' =>
      let futureIn := nth i buffer output in
      let futureT := time cl + of_nat i * DT in
      futureDemand <- getDisturbanceValue futureT (activeDemandPattern cl) ;;
      lookahead steps' (S i) buffer output
        (predictedLevel
         + (futureIn - futureDemand) * DT / tankArea (deployedParadigm cl))
  end.

(** The three control laws, before the pump limits. *)
Definition pidLaw (error : Qc) : M Qc :=
  modify (fun s => set_integral (integral s + error * DT) s) ;;;
  (* Anti-windup *)
  i <- gets integral ;;
  (if gtb (Math_abs i) (num 500)
   then modify (set_integral (Math_sign i * num 500))
   else ret tt) ;;;
  e0 <- gets lastError ;;
  let derivative := (error - e0) / DT in
  let Kp := if gtb (tankArea (deployedParadigm cl)) (num 100)
            then num 5.0 else num 2.0 in
  let Ki := num 0.5 in
  let Kd := num 0.1 in
  i <- gets integral ;;
  let output := Kp * error + Ki * i + Kd * derivative in
  ret (output + num 50).

Definition smithLaw (target level demand : Qc) : M Qc :=
  let modelArea := tankArea (deployedParadigm cl) in
  u <- gets lastOut ;;
  let dModel := (u - demand) * DT / modelArea in
  modify (fun s => set_modelLevel (modelLevel s + dModel) s) ;;;
  m <- gets modelLevel ;;
  let predError := target - m in
  let mismatch := level - m in
  let Kp := num 4.0 in
  ret (Kp * (predError - mismatch) + num 50).

Definition mpcLaw (target level : Qc) : M Qc :=
  let predictionHorizon := 50%nat in
  buffer <- gets pipeBuffer ;;
  predictedLevel <- lookahead predictionHorizon 0 buffer 0 level ;;
  let futureError := target - predictedLevel in
  u <- gets lastOut ;;
  ret (u + futureError * num 2.0).

Definition maxFlow : Qc :=
  if active (pumpEfficiency (faults cl))
  then num 250 * (1 - value (pumpEfficiency (faults cl)) / num 100)
  else num 250.

(** 2. Control Algorithms *)
Definition runControl (target level demand : Qc) : M Qc :=
  let error := target - level in
  output <- match algorithm (deployedParadigm cl) with
            | PID => pidLaw error
            | SMITH => smithLaw target level demand
            | MPC => mpcLaw target level
            end ;;
  modify (set_lastError error) ;;;
  (* Pump limits & Faults *)
  let output := Math_max 0 (Math_min maxFlow output) in
  modify (set_lastOut output) ;;;
  ret output.

(** What one run of the interval callback hands back to React. *)
Record TickOut := {
  nextT : Qc;
  calls : list Call;
  sample : ChartData;
  tankInflow : Qc
}.

(** Steps 2 to 6 of the callback, which do not read the plans: the sample
    appended to the history and the inflow reaching the tank. *)
Definition dynamics (nextT : Qc) : M (ChartData * Qc) :=
  (* 2. Calculate Dynamics *)
  currentDemand <- getDisturbanceValue nextT (activeDemandPattern cl) ;;
  currentTarget <- getDisturbanceValue nextT (activeSetpointPattern cl) ;;
  (* 3. Sensors (with fault) *)
  h <- gets tankLevel ;;
  let sensedLevel :=
    if active (sensorDrift (faults cl))
    then h + value (sensorDrift (faults cl)) else h in
  r <- random ;;
  let sensedLevel := sensedLevel + (r - num 0.5) * num 0.1 in
  (* 4. Controller *)
  pumpOutput <- runControl currentTarget sensedLevel currentDemand ;;
  (* 5. Physics Update *)
  inflow <- updatePhysics pumpOutput currentDemand ;;
  (* 6. Record History *)
  h' <- gets tankLevel ;;
  ret ({| t := nextT; level := h'; target := currentTarget;
          flowIn := pumpOutput; flowOut := currentDemand |}, inflow).

(** The body of [setTime(t => ...)], [t] being the current time. *)
Definition tick (t : Qc) : M TickOut :=
  let nextT := t + DT in
  (* 1. Check Plans *)
  ps <- gets plans ;;
  let fired := checkPlans nextT ps in
  modify (set_plans (fst fired)) ;;;
  r <- dynamics nextT ;;
  ret {| nextT := nextT; calls := snd fired; sample := fst r;
         tankInflow := snd r |}.

End Closure.

(** *** The component between two runs of the interval *)

Definition set_time (v : Qc) (r : ReactState) : ReactState :=
  {| time := v; isRunning := isRunning r; history := history r;
     deployedParadigm := deployedParadigm r;
     activeDemandPattern := activeDemandPattern r;
     activeSetpointPattern := activeSetpointPattern r; faults := faults r |}.

Definition set_isRunning (v : bool) (r : ReactState) : ReactState :=
  {| time := time r; isRunning := v; history := history r;
     deployedParadigm := deployedParadigm r;
     activeDemandPattern := activeDemandPattern r;
     activeSetpointPattern := activeSetpointPattern r; faults := faults r |}.

Definition set_history (v : list ChartData) (r : ReactState) : ReactState :=
  {| time := time r; isRunning := isRunning r; history := v;
     deployedParadigm := deployedParadigm r;
     activeDemandPattern := activeDemandPattern r;
     activeSetpointPattern := activeSetpointPattern r; faults := faults r |}.

Definition set_deployedParadigm (v : DesignParadigm) (r : ReactState)
  : ReactState :=
  {| time := time r; isRunning := isRunning r; history := history r;
     deployedParadigm := v;
     activeDemandPattern := activeDemandPattern r;
     activeSetpointPattern := activeSetpointPattern r; faults := faults r |}.

Definition set_activeDemandPattern (v : DisturbanceConfig) (r : ReactState)
  : ReactState :=
  {| time := time r; isRunning := isRunning r; history := history r;
     deployedParadigm := deployedParadigm r;
     activeDemandPattern := v;
     activeSetpointPattern := activeSetpointPattern r; faults := faults r |}.

Definition set_activeSetpointPattern (v : DisturbanceConfig) (r : ReactState)
  : ReactState :=
  {| time := time r; isRunning := isRunning r; history := history r;
     deployedParadigm := deployedParadigm r;
     activeDemandPattern := activeDemandPattern r;
     activeSetpointPattern := v; faults := faults r |}.

Definition set_faults (v : FaultState) (r : ReactState) : ReactState :=
  {| time := time r; isRunning := isRunning r; history := history r;
     deployedParadigm := deployedParadigm r;
     activeDemandPattern := activeDemandPattern r;
     activeSetpointPattern := activeSetpointPattern r; faults := v |}.

(** The updater given to [setHistory]. *)
Definition pushHistory (x : ChartData) (prev : list ChartData)
  : list ChartData :=
  let newData := prev ++ [x] in
  if gtb (of_nat (List.length newData)) (MAX_HISTORY * num 1.5)
  then skipn (List.length newData - to_nat MAX_HISTORY) newData
  else newData.

Definition applyCall (r : ReactState) (c : Call) : ReactState :=
  match c with
  | setActiveDemandPattern v => set_activeDemandPattern v r
  | setActiveSetpointPattern v => set_activeSetpointPattern v r
  | handleSendMessage _ => r
  end.

Definition changesPattern (c : Call) : bool :=
  match c with
  | handleSendMessage _ => false
  | _ => true
  end.

(** The component: the state of the latest render, the render captured by
    the installed interval, and the mutable cells.  The effect that installs
    the interval depends on [isRunning], the two patterns, [faults],
    [deployedParadigm] and [plans], not on [time]: the closure is replaced
    only when one of these changes. *)
Record Sim := {
  react : ReactState;
  closure : ReactState;
  store : Store
}.

(** One run of the interval callback followed by the render it causes. *)
Definition interval (w : Sim) : Sim :=
  if isRunning (closure w) then
    let r := tick (closure w) (time (react w)) (store w) in
    let out := fst r in
    let react1 :=
      set_history (pushHistory (sample out) (history (react w)))
        (set_time (nextT out) (react w)) in
    let react2 := fold_left applyCall (calls out) react1 in
    {| react := react2;
       closure := if existsb changesPattern (calls out) then react2
                  else closure w;
       store := snd r |}
  else w.

Definition paradigm_eqb (p q : DesignParadigm) : bool :=
  match ptype p, ptype q with
  | TRADITIONAL, TRADITIONAL | IMPROVED, IMPROVED | MODERN, MODERN =>
      eqb (tankArea p) (tankArea q)
      && match algorithm p, algorithm q with
         | PID, PID | SMITH, SMITH | MPC, MPC => true
         | _, _ => false
         end
  | _, _ => false
  end.

Definition deployParadigm (p : DesignParadigm) (w : Sim) : Sim :=
  let react' := set_deployedParadigm p (react w) in
  {| react := react';
     closure := if paradigm_eqb p (deployedParadigm (react w)) then closure w
                else react';
     (* Reset Sim a bit to avoid instability *)
     store := set_lastError 0 (set_integral 0 (store w)) |}.

(** The handler of the reset button. *)
Definition reset (w : Sim) : Sim :=
  {| react := set_history [] (set_time 0 (react w));
     closure := closure w;
     store :=
       set_pipeBuffer (map (fun _ => 0) (pipeBuffer (store w)))
         (set_tankLevel (num 295) (store w)) |}.

Definition toggleRunning (w : Sim) : Sim :=
  let react' := set_isRunning (negb (isRunning (react w))) (react w) in
  {| react := react'; closure := react'; store := store w |}.

Inductive Scope := DEMAND | TARGET.

Definition executeImmediate (disturbanceScope : Scope)
  (draftDisturbance : DisturbanceConfig) (w : Sim) : Sim :=
  let react' :=
    match disturbanceScope with
    | DEMAND => set_activeDemandPattern draftDisturbance (react w)
    | TARGET => set_activeSetpointPattern draftDisturbance (react w)
    end in
  {| react := react'; closure := react'; store := store w |}.

Definition setFaults (f : FaultState) (w : Sim) : Sim :=
  let react' := set_faults f (react w) in
  {| react := react'; closure := react'; store := store w |}.

(** [sort((a, b) => a.triggerTime - b.triggerTime)], which is stable. *)
Fixpoint insertPlan (p : PlanStep) (l : list PlanStep) : list PlanStep :=
  match l with
  | [] => [p]
  | q :: r =>
      if ltb (triggerTime q) (triggerTime p) then q :: insertPlan p r
      else p :: q :: r
  end.

Definition sortPlans (l : list PlanStep) : list PlanStep :=
  fold_right insertPlan [] l.

Definition addPlan (now : string) (planDelay : Qc) (disturbanceScope : Scope)
  (draftDisturbance : DisturbanceConfig) (w : Sim) : Sim :=
  let newPlan :=
    {| id := now;
       triggerTime := time (react w) + planDelay;
       actionType := match disturbanceScope with
                     | DEMAND => CHANGE_DISTURBANCE
                     | TARGET => CHANGE_SETPOINT
                     end;
       payload := draftDisturbance;
       status := pending |} in
  {| react := react w; closure := react w;
     store := set_plans (sortPlans (plans (store w) ++ [newPlan])) (store w) |}.

Inductive Event :=
  | Interval
  | DeployParadigm (p : DesignParadigm)
  | Reset
  | ToggleRunning
  | ExecuteImmediate (disturbanceScope : Scope) (draft : DisturbanceConfig)
  | SetFaults (f : FaultState)
  | AddPlan (now : string) (planDelay : Qc) (disturbanceScope : Scope)
            (draft : DisturbanceConfig).

Definition step (w : Sim) (e : Event) : Sim :=
  match e with
  | Interval => interval w
  | DeployParadigm p => deployParadigm p w
  | Reset => reset w
  | ToggleRunning => toggleRunning w
  | ExecuteImmediate sc d => executeImmediate sc d w
  | SetFaults f => setFaults f w
  | AddPlan now delay sc d => addPlan now delay sc d w
  end.

Definition run (es : list Event) (w : Sim) : Sim := fold_left step es w.

(** The component as first rendered. *)
Definition initialReact : ReactState :=
  {| time := 0; isRunning := true; history := [];
     deployedParadigm := nth 1 PARADIGMS
       {| ptype := IMPROVED; tankArea := num 80.0; algorithm := SMITH |};
     activeDemandPattern :=
       {| type := STEP; base := num 50; amplitude := num 100;
          frequency := num 0.1; d_active := true |};
     activeSetpointPattern :=
       {| type := CONSTANT; base := num 295; amplitude := 0;
          frequency := 0; d_active := true |};
     faults :=
       {| leakage := {| active := false; value := 0 |};
          pumpEfficiency := {| active := false; value := 0 |};
          sensorDrift := {| active := false; value := 0 |} |} |}.

Definition initialStore : Store :=
  {| pipeBuffer := repeat 0 (to_nat BUFFER_SIZE);
     tankLevel := num 295;
     modelLevel := num 295;
     delayedLevel := num 295;
     integral := 0;
     lastError := 0;
     lastOut := 0;
     plans := [];
     randomCalls := 0 |}.

Definition initial : Sim :=
  {| react := initialReact; closure := initialReact; store := initialStore |}.

(** The handler of the bin button of a queued plan. *)
Definition deletePlan (planId : string) (w : Sim) : Sim :=
  {| react := react w; closure := react w;
     store :=
       set_plans
         (filter (fun p => negb (String.eqb (id p) planId)) (plans (store w)))
         (store w) |}.

(** *** The prediction drawn on the chart *)




(** *** Runs used to state properties *)

(** [n] successive calls of [runControl] with the same arguments. *)
Fixpoint repeatControl (cl : ReactState) (target level demand : Qc) (n : nat)
  (s : Store) : Store :=
  match n with
  | O => s
  | S k => snd (runControl cl target level demand
                  (repeatControl cl target level demand k s))
  end.

(** Successive calls of [updatePhysics], each with its closure, pump inflow
    and demand; the result lists the tank inflow returned by each call. *)
Fixpoint feed (calls : list (ReactState * Qc * Qc)) (s : Store)
  : list Qc * Store :=
  match calls with
  | [] => ([], s)
  | (cl, pumpInflow, demandOutflow) :: rest =>
      let r := updatePhysics cl pumpInflow demandOutflow s in
      let r' := feed rest (snd r) in
      (fst r :: fst r', snd r')
  end.

(** Successive ticks, each with its closure and current time; the result
    lists, for each tick, the pump output and the inflow reaching the tank. *)
Fixpoint ticks (steps : list (ReactState * Qc)) (s : Store)
  : list (Qc * Qc) :=
  match steps with
  | [] => []
  | (cl, t0) :: rest =>
      let r := tick cl t0 s in
      (flowIn (sample (fst r)), tankInflow (fst r)) :: ticks rest (snd r)
  end.

End WithMath.

End App.

(** ** src/unnamed/part_000: the canvas variant of the component *)

Module AppCanvas.

Definition DT : Qc := num 0.1.
Definition BUFFER_SIZE : Qc := num 500.
Definition HISTORY_SECONDS : Qc := num 60.
Definition MAX_HISTORY : Qc := Math_round (HISTORY_SECONDS / DT).

Inductive NodeType :=
  | SOURCE | PUMP | PIPE | RESERVOIR | DEMAND | VALVE | GATE | TURBINE.

Definition NodeType_eqb (a b : NodeType) : bool :=
  match a, b with
  | SOURCE, SOURCE | PUMP, PUMP | PIPE, PIPE | RESERVOIR, RESERVOIR
  | DEMAND, DEMAND | VALVE, VALVE | GATE, GATE | TURBINE, TURBINE => true
  | _, _ => false
  end.

(** [data: any]: the properties the simulation reads, each possibly
    missing. *)
Record NodeData := {
  area : option Qc;
  delay : option Qc;
  efficiency : option Qc
}.

Record CanvasNode := {
  nid : string;
  ntype : NodeType;
  data : NodeData
}.

Record CanvasEdge := {
  eid : string;
  source : string;
  etarget : string
}.

Record Store := {
  pipeBuffer : list Qc;
  tankLevel : Qc;
  lastOut : Qc;          (* mpcStateRef.current.lastOut *)
  integral : Qc;
  lastError : Qc;
  plans : list PlanStep;
  randomCalls : nat
}.

Definition set_pipeBuffer (v : list Qc) (s : Store) : Store :=
  {| pipeBuffer := v; tankLevel := tankLevel s; lastOut := lastOut s;
     integral := integral s; lastError := lastError s; plans := plans s;
     randomCalls := randomCalls s |}.

Definition set_tankLevel (v : Qc) (s : Store) : Store :=
  {| pipeBuffer := pipeBuffer s; tankLevel := v; lastOut := lastOut s;
     integral := integral s; lastError := lastError s; plans := plans s;
     randomCalls := randomCalls s |}.

Definition set_lastOut (v : Qc) (s : Store) : Store :=
  {| pipeBuffer := pipeBuffer s; tankLevel := tankLevel s; lastOut := v;
     integral := integral s; lastError := lastError s; plans := plans s;
     randomCalls := randomCalls s |}.

Definition set_integral (v : Qc) (s : Store) : Store :=
  {| pipeBuffer := pipeBuffer s; tankLevel := tankLevel s;
     lastOut := lastOut s; integral := v; lastError := lastError s;
     plans := plans s; randomCalls := randomCalls s |}.

Definition set_lastError (v : Qc) (s : Store) : Store :=
  {| pipeBuffer := pipeBuffer s; tankLevel := tankLevel s;
     lastOut := lastOut s; integral := integral s; lastError := v;
     plans := plans s; randomCalls := randomCalls s |}.

Definition set_plans (v : list PlanStep) (s : Store) : Store :=
  {| pipeBuffer := pipeBuffer s; tankLevel := tankLevel s;
     lastOut := lastOut s; integral := integral s;
     lastError := lastError s; plans := v; randomCalls := randomCalls s |}.

Definition set_randomCalls (v : nat) (s : Store) : Store :=
  {| pipeBuffer := pipeBuffer s; tankLevel := tankLevel s;
     lastOut := lastOut s; integral := integral s;
     lastError := lastError s; plans := plans s; randomCalls := v |}.

Definition M : Type -> Type := State Store.

(** The [useState] values read by the physics loop. *)
Record ReactState := {
  deployedParadigm : DesignParadigm;
  nodes : list CanvasNode;
  edges : list CanvasEdge;
  activeDemandPattern : DisturbanceConfig;
  activeSetpointPattern : DisturbanceConfig;
  faults : FaultState
}.

Inductive Call :=
  | setActiveDemandPattern (c : DisturbanceConfig)
  | setActiveSetpointPattern (c : DisturbanceConfig).

Fixpoint checkPlans (nextT : Qc) (ps : list PlanStep)
  : list PlanStep * list Call :=
  match ps with
  | [] => ([], [])
  | p :: rest =>
      let r := checkPlans nextT rest in
      if is_pending p && geb nextT (triggerTime p)
      then (set_status completed p :: fst r,
            match actionType p with
            | CHANGE_DISTURBANCE => setActiveDemandPattern (payload p)
            | CHANGE_SETPOINT => setActiveSetpointPattern (payload p)
            end :: snd r)
      else (p :: fst r, snd r)
  end.

Section WithMath.

Context {math : JSMath}.

Definition random : M Qc :=
  fun s => (Math_random (randomCalls s), set_randomCalls (S (randomCalls s)) s).

(** This variant has no TRIANGLE, SAWTOOTH or RANDOM_WALK case: they take
    the [default] branch. *)
Definition getDisturbanceValue (t : Qc) (config : DisturbanceConfig) : M Qc :=
  let omega := num 2 * Math_PI * frequency config in
  let period := 1 / Math_max (num 0.001) (frequency config) in
  let localT := rem t period in
  let base := base config in
  let amplitude := amplitude config in
  match type config with
  | CONSTANT => ret base
  | STEP => ret (if ltb localT (period / num 2) then base else base + amplitude)
  | RAMP => ret (base + amplitude * (localT / period))
  | SINE => ret (base + amplitude * Math_sin (omega * t))
  | SQUARE => ret (base + amplitude * Math_sign (Math_sin (omega * t)))
  | PULSE =>
      ret (if ltb localT (period * num 0.1) then base + amplitude else base)
  | NOISE =>
      r <- random ;;
      ret (base + (r - num 0.5) * amplitude)
  | BURST =>
      ret (if gtb (rem t (num 20)) (num 18) then base + amplitude * num 2
           else base)
  | _ => ret base
  end.

Section Closure.

Variable cl : ReactState.

Definition findNode (ty : NodeType) : option CanvasNode :=
  find (fun n => NodeType_eqb (ntype n) ty) (nodes cl).

Definition reservoir : option CanvasNode := findNode RESERVOIR.
Definition pipe : option CanvasNode := findNode PIPE.
Definition pump : option CanvasNode := findNode PUMP.

(** [node?.data.field || fallback] *)
Definition prop (n : option CanvasNode) (field : NodeData -> option Qc)
  (fallback : Qc) : Qc :=
  opt_or_else (match n with Some x => field (data x) | None => None end)
              fallback.

Definition nodeArea : Qc := prop reservoir area (tankArea (deployedParadigm cl)).
Definition nodeDelay : Qc := prop pipe delay (num 5.0).
Definition eff : Qc := prop pump efficiency (num 100).

Definition isConnected : bool :=
  existsb (fun e => match reservoir with
                    | Some r => String.eqb (etarget e) (nid r)
                    | None => false
                    end) (edges cl)
  || true.

(** The control law, before the pump limits. *)
Definition law (error : Qc) : M Qc :=
  if isConnected then
    match algorithm (deployedParadigm cl) with
    | PID =>
        modify (fun s => set_integral (integral s + error * DT) s) ;;;
        i <- gets integral ;;
        (if gtb (Math_abs i) (num 500)
         then modify (set_integral (Math_sign i * num 500))
         else ret tt) ;;;
        i <- gets integral ;;
        e0 <- gets lastError ;;
        ret ((if gtb nodeArea (num 100) then num 5 else num 2) * error
             + num 0.5 * i + num 0.1 * (error - e0) / DT + num 50)
    | MPC =>
        u <- gets lastOut ;;
        ret (u + error * num 2.5)
    | SMITH => ret (num 4 * error + num 50)
    end
  else ret 0.

Definition maxQ : Qc :=
  let maxQ := num 250 * (eff / num 100) in
  if active (pumpEfficiency (faults cl))
  then maxQ * (1 - value (pumpEfficiency (faults cl)) / num 100)
  else maxQ.

(** Control *)
Definition control (error : Qc) : M Qc :=
  out <- law error ;;
  modify (set_lastError error) ;;;
  let out := Math_max 0 (Math_min maxQ out) in
  modify (set_lastOut out) ;;;
  ret out.

(** [buf[buf.length - idx]]; [None] is JavaScript's [undefined], read when
    the index falls outside the array. *)
Definition lookBack (buf : list Qc) (idx : Z) : option Qc :=
  let k := (Z.of_nat (List.length buf) - idx)%Z in
  if (k <? 0)%Z then None else nth_error buf (Z.to_nat k).

(** Buffer *)
Definition delayLine (out : Qc) : M (option Qc) :=
  modify (fun s => set_pipeBuffer (pipeBuffer s ++ [out]) s) ;;;
  buf <- gets pipeBuffer ;;
  (if gtb (of_nat (List.length buf)) BUFFER_SIZE
   then modify (set_pipeBuffer (tl buf))
   else ret tt) ;;;
  buf <- gets pipeBuffer ;;
  let idx := Qfloor (nodeDelay / DT) in
  ret (if (Z.of_nat (List.length buf) >=? idx)%Z then lookBack buf idx
       else Some 0).

(** Physics Update *)
Definition physics (inflow demand : Qc) : M unit :=
  h <- gets tankLevel ;;
  let net := inflow - demand in
  let net := if active (leakage (faults cl))
             then net - value (leakage (faults cl)) / num 10
                        * Math_sqrt (Math_max 0 h)
             else net in
  if isConnected
  then modify (set_tankLevel (Math_max 0 (h + net * DT / nodeArea)))
  else ret tt.

Record TickOut := {
  nextT : Qc;
  calls : list Call;
  sample : ChartData;
  tankInflow : Qc
}.

(** The body of [setTime(t => ...)].  The result is [None] when the look-up
    in the buffer reads [undefined], which is not a number of the model. *)
Definition tick (t : Qc) (s : Store) : option (TickOut * Store) :=
  let nextT := t + DT in
  (* Plans *)
  let fired := checkPlans nextT (plans s) in
  let s := set_plans (fst fired) s in
  (* Dynamics *)
  let d := getDisturbanceValue nextT (activeDemandPattern cl) s in
  let demand := fst d in
  let g := getDisturbanceValue nextT (activeSetpointPattern cl) (snd d) in
  let target := fst g in
  let s := snd g in
  let error := target - tankLevel s in
  let c := control error s in
  let out := fst c in
  let b := delayLine out (snd c) in
  match fst b with
  | None => None
  | Some inflow =>
      let s := snd (physics inflow demand (snd b)) in
      Some ({| nextT := nextT;
               calls := snd fired;
               sample := {| t := nextT; level := tankLevel s;
                            target := target; flowIn := out;
                            flowOut := demand |};
               tankInflow := inflow |}, s)
  end.

(** [n] successive ticks under the same closure; the result lists, for each
    tick, the pump output and the inflow reaching the tank. *)
Fixpoint ticks (n : nat) (t0 : Qc) (s : Store) : option (list (Qc * Qc)) :=
  match n with
  | O => Some []
  | S k =>
      match tick t0 s with
      | None => None
      | Some (out, s') =>
          match ticks k (nextT out) s' with
          | None => None
          | Some l => Some ((flowIn (sample out), tankInflow out) :: l)
          end
      end
  end.

End Closure.

End WithMath.

(** Successive runs of the buffer stage, one per pump output; the result
    lists the inflow read at each. *)
Fixpoint pushAll (cl : ReactState) (outs : list Qc) (s : Store)
  : list (option Qc) * Store :=
  match outs with
  | [] => ([], s)
  | out :: rest =>
      let r := delayLine cl out s in
      let r' := pushAll cl rest (snd r) in
      (fst r :: fst r', snd r')
  end.

Definition PARADIGMS : list DesignParadigm :=
  [ {| ptype := TRADITIONAL; tankArea := num 200.0; algorithm := PID |};
    {| ptype := IMPROVED; tankArea := num 80.0; algorithm := SMITH |};
    {| ptype := MODERN; tankArea := num 15.0; algorithm := MPC |} ].

Definition noData : NodeData :=
  {| area := None; delay := None; efficiency := None |}.

(** The component as first rendered (labels and positions left out). *)
Definition initialReact : ReactState :=
  {| deployedParadigm := nth 1 PARADIGMS
       {| ptype := IMPROVED; tankArea := num 80.0; algorithm := SMITH |};
     nodes :=
       [ {| nid := "n1"; ntype := SOURCE; data := noData |};
         {| nid := "n2"; ntype := PUMP;
            data := {| area := None; delay := None;
                       efficiency := Some (num 100) |} |};
         {| nid := "n3"; ntype := PIPE;
            data := {| area := None; delay := Some (num 5.0);
                       efficiency := None |} |};
         {| nid := "n4"; ntype := RESERVOIR;
            data := {| area := Some (num 80.0); delay := None;
                       efficiency := None |} |};
         {| nid := "n5"; ntype := DEMAND; data := noData |} ];
     edges :=
       [ {| eid := "e1"; source := "n1"; etarget := "n2" |};
         {| eid := "e2"; source := "n2"; etarget := "n3" |};
         {| eid := "e3"; source := "n3"; etarget := "n4" |};
         {| eid := "e4"; source := "n4"; etarget := "n5" |} ];
     activeDemandPattern :=
       {| type := STEP; base := num 50; amplitude := num 100;
          frequency := num 0.1; d_active := true |};
     activeSetpointPattern :=
       {| type := CONSTANT; base := num 295; amplitude := 0;
          frequency := 0; d_active := true |};
     faults :=
       {| leakage := {| active := false; value := 0 |};
          pumpEfficiency := {| active := false; value := 0 |};
          sensorDrift := {| active := false; value := 0 |} |} |}.

(** *** Editing the canvas *)

(** The data of a node dropped on the canvas. *)
Definition newNodeData (ty : NodeType) : NodeData :=
  match ty with
  | RESERVOIR =>
      {| area := Some (num 100); delay := None; efficiency := None |}
  | PIPE => {| area := None; delay := Some (num 5); efficiency := None |}
  | PUMP => {| area := None; delay := None; efficiency := Some (num 100) |}
  | _ => noData
  end.

(** [handleDrop], the new identifier being made from the clock. *)
Definition handleDrop (now : string) (ty : NodeType) (r : ReactState)
  : ReactState :=
  {| deployedParadigm := deployedParadigm r;
     nodes := nodes r
              ++ [{| nid := now; ntype := ty; data := newNodeData ty |}];
     edges := edges r;
     activeDemandPattern := activeDemandPattern r;
     activeSetpointPattern := activeSetpointPattern r;
     faults := faults r |}.

Definition set_edges (v : list CanvasEdge) (r : ReactState) : ReactState :=
  {| deployedParadigm := deployedParadigm r; nodes := nodes r; edges := v;
     activeDemandPattern := activeDemandPattern r;
     activeSetpointPattern := activeSetpointPattern r; faults := faults r |}.

(** [handleEndConnect]: the mouse is released on the node [nodeId] while an
    edge is being drawn from [tempEdge] (the source node, if any). *)
Definition handleEndConnect (now : string) (tempEdge : option string)
  (nodeId : string) (r : ReactState) : ReactState :=
  match tempEdge with
  | Some sourceId =>
      if negb (String.eqb sourceId nodeId) then
        match find (fun e => String.eqb (source e) sourceId
                             && String.eqb (etarget e) nodeId) (edges r) with
        | None =>
            set_edges (edges r ++ [{| eid := now; source := sourceId;
                                      etarget := nodeId |}]) r
        | Some _ => r
        end
      else r
  | None => r
  end.

(** The delete button of the selected node. *)
Definition deleteNode (nodeId : string) (r : ReactState) : ReactState :=
  {| deployedParadigm := deployedParadigm r;
     nodes := filter (fun n => negb (String.eqb (nid n) nodeId)) (nodes r);
     edges := filter (fun e => negb (String.eqb (source e) nodeId)
                               && negb (String.eqb (etarget e) nodeId))
                     (edges r);
     activeDemandPattern := activeDemandPattern r;
     activeSetpointPattern := activeSetpointPattern r;
     faults := faults r |}.

(** The sliders of the selected node: [setNodes(prev => prev.map(n =>
    n.id === node.id ? {...n, data: {...n.data, field: v}} : n))]. *)
Definition setData (nodeId : string) (f : NodeData -> NodeData)
  (r : ReactState) : ReactState :=
  {| deployedParadigm := deployedParadigm r;
     nodes := map (fun n => if String.eqb (nid n) nodeId
                            then {| nid := nid n; ntype := ntype n;
                                    data := f (data n) |}
                            else n) (nodes r);
     edges := edges r;
     activeDemandPattern := activeDemandPattern r;
     activeSetpointPattern := activeSetpointPattern r;
     faults := faults r |}.

(** The slider of a reservoir, from 10 to 300. *)
Definition setArea (nodeId : string) (v : Qc) : ReactState -> ReactState :=
  setData nodeId (fun d => {| area := Some v; delay := delay d;
                              efficiency := efficiency d |}).

(** The slider of a pipe, from 1 to 20. *)
Definition setDelay (nodeId : string) (v : Qc) : ReactState -> ReactState :=
  setData nodeId (fun d => {| area := area d; delay := Some v;
                              efficiency := efficiency d |}).

(** The slider of a pump, from 0 to 100. *)
Definition setEfficiency (nodeId : string) (v : Qc)
  : ReactState -> ReactState :=
  setData nodeId (fun d => {| area := area d; delay := delay d;
                              efficiency := Some v |}).

(** The updater given to [setHistory]. *)
Definition pushHistory (x : ChartData) (p : list ChartData)
  : list ChartData :=
  let next := p ++ [x] in
  if gtb (of_nat (List.length next)) MAX_HISTORY
  then skipn (List.length next - to_nat MAX_HISTORY) next
  else next.

(** [applyParadigm]: the canvas goes back to the five nodes of the chain,
    the reservoir taking the area of the paradigm. *)
Definition applyParadigm (p : DesignParadigm) (r : ReactState) (s : Store)
  : ReactState * Store :=
  ({| deployedParadigm := p;
      nodes :=
        [ {| nid := "n1"; ntype := SOURCE; data := noData |};
          {| nid := "n2"; ntype := PUMP;
             data := {| area := None; delay := None;
                        efficiency := Some (num 100) |} |};
          {| nid := "n3"; ntype := PIPE;
             data := {| area := None; delay := Some (num 5.0);
                        efficiency := None |} |};
          {| nid := "n4"; ntype := RESERVOIR;
             data := {| area := Some (tankArea p); delay := None;
                        efficiency := None |} |};
          {| nid := "n5"; ntype := DEMAND; data := noData |} ];
      edges :=
        [ {| eid := "e1"; source := "n1"; etarget := "n2" |};
          {| eid := "e2"; source := "n2"; etarget := "n3" |};
          {| eid := "e3"; source := "n3"; etarget := "n4" |};
          {| eid := "e4"; source := "n4"; etarget := "n5" |} ];
      activeDemandPattern := activeDemandPattern r;
      activeSetpointPattern := activeSetpointPattern r;
      faults := faults r |},
   set_integral 0 (set_tankLevel (num 295) s)).

(** The refs as first rendered. *)
Definition initialStore : Store :=
  {| pipeBuffer := repeat 0 (to_nat BUFFER_SIZE);
     tankLevel := num 295;
     lastOut := 0;
     integral := 0;
     lastError := 0;
     plans := [];
     randomCalls := 0 |}.

End AppCanvas.

(** ** Abbreviations for the statements *)

(** The anti-windup line of the PID branch, as a function of the integral
    just accumulated. *)
Definition antiWindup (i : Qc) : Qc :=
  if gtb (Math_abs i) (num 500) then Math_sign i * num 500 else i.

(** The pump inflows of a list of [updatePhysics] calls. *)
Definition pumpInflows (calls : list (App.ReactState * Qc * Qc)) : list Qc :=
  map (fun c => snd (fst c)) calls.

(** [delaySamples = round(delaySeconds / tick)], as a number of ticks. *)
Definition delaySamples (delaySeconds tick : Qc) : nat :=
  to_nat (Math_round (delaySeconds / tick)).

(** An impulse of 7 followed by fifty zeros. *)
Definition impulse : list Qc := num 7 :: repeat 0 50.

(** A plan that the tick reaching [nextT] fires. *)
Definition due (nextT : Qc) (p : PlanStep) : bool :=
  is_pending p && geb nextT (triggerTime p).

(** The state setter that [executePlan] calls for a plan. *)
Definition setter (p : PlanStep) : App.Call :=
  match actionType p with
  | CHANGE_DISTURBANCE => App.setActiveDemandPattern (payload p)
  | CHANGE_SETPOINT => App.setActiveSetpointPattern (payload p)
  end.

(** Two plans set the same pattern. *)
Definition sameAction (p q : PlanStep) : bool :=
  match actionType p, actionType q with
  | CHANGE_DISTURBANCE, CHANGE_DISTURBANCE
  | CHANGE_SETPOINT, CHANGE_SETPOINT => true
  | _, _ => false
  end.

(** Among the plans that fire in the tick reaching [nextT], the last one in
    the order of the queue that sets the same pattern as [p]: [forEach]
    calls the setters in that order, and the last call is the one that the
    next render sees. *)
Definition lastFired (nextT : Qc) (plans : list PlanStep) (p : PlanStep)
  : PlanStep :=
  last (filter (sameAction p) (filter (due nextT) plans)) p.

(** A computation that neither reads nor writes the plans. *)
Definition plan_free {A : Type} (m : App.M A) : Prop :=
  forall ps s,
    m (App.set_plans ps s) = (fst (m s), App.set_plans ps (snd (m s))).

(** A computation that leaves the delay buffer as it is. *)
Definition keeps_buffer {A : Type} (m : App.M A) : Prop :=
  forall s, App.pipeBuffer (snd (m s)) = App.pipeBuffer s.

(** The period of a waveform, the frequency being floored at 0.001. *)
Definition period (c : DisturbanceConfig) : Qc :=
  1 / Math_max (num 0.001) (frequency c).

(** The waveforms made of straight pieces of the local time. *)
Definition piecewise (ty : DisturbanceType) : bool :=
  match ty with
  | CONSTANT | STEP | RAMP | TRIANGLE | SAWTOOTH | PULSE => true
  | _ => false
  end.

(** The number of [Math.random()] calls a waveform makes. *)
Definition draws (ty : DisturbanceType) : nat :=
  match ty with
  | NOISE | RANDOM_WALK => 1
  | _ => 0
  end.

(** Plans in the order of their trigger times. *)
Definition byTrigger (p q : PlanStep) : Prop := triggerTime p <= triggerTime q.

Definition sortedPlans (l : list PlanStep) : Prop := StronglySorted byTrigger l.

(** The plan that [addPlan] builds. *)
Definition newPlan (now : string) (planDelay : Qc)
  (disturbanceScope : App.Scope) (draft : DisturbanceConfig) (w : App.Sim)
  : PlanStep :=
  {| id := now;
     triggerTime := App.time (App.react w) + planDelay;
     actionType := match disturbanceScope with
                   | App.DEMAND => CHANGE_DISTURBANCE
                   | App.TARGET => CHANGE_SETPOINT
                   end;
     payload := draft;
     status := pending |}.

(** The two ends of an edge. *)
Definition ends (e : AppCanvas.CanvasEdge) : string * string :=
  (AppCanvas.source e, AppCanvas.etarget e).

(** Every edge joins two nodes of the canvas. *)
Definition noDangling (r : AppCanvas.ReactState) : Prop :=
  Forall (fun e =>
            In (AppCanvas.source e) (map AppCanvas.nid (AppCanvas.nodes r))
            /\ In (AppCanvas.etarget e)
                 (map AppCanvas.nid (AppCanvas.nodes r)))
         (AppCanvas.edges r).

(** ** Concrete inputs *)

Module Example.

Definition TRADITIONAL_paradigm : DesignParadigm :=
  {| ptype := TRADITIONAL; tankArea := num 200.0; algorithm := PID |}.

Definition MODERN_paradigm : DesignParadigm :=
  {| ptype := MODERN; tankArea := num 15.0; algorithm := MPC |}.

(** A constant demand of 120. *)
Definition constant120 : DisturbanceConfig :=
  {| type := CONSTANT; base := num 120; amplitude := 0;
     frequency := num 0.1; d_active := true |}.

(** The plan that [addPlan] queues at time 0 with a delay of 0.25 s: it
    switches the demand to [constant120]. *)
Definition plan : PlanStep :=
  {| id := "1"; triggerTime := 0 + num 0.25;
     actionType := CHANGE_DISTURBANCE; payload := constant120;
     status := pending |}.

(** The component after that plan was added and two ticks have run: the
    time is 0.2 and the next tick reaches 0.3. *)
Definition beforeFiring : App.Sim :=
  App.run (math := rationalMath)
    [App.AddPlan "1" (num 0.25) App.DEMAND constant120;
     App.Interval; App.Interval] App.initial.

(** The component after one tick under the initial (SMITH) paradigm. *)
Definition afterOneTick : App.Sim :=
  App.run (math := rationalMath) [App.Interval] App.initial.

(** The component with a plan queued after one tick under PID. *)
Definition afterPidTick : App.Sim :=
  App.run (math := rationalMath)
    [App.AddPlan "1" (num 0.25) App.DEMAND constant120;
     App.DeployParadigm TRADITIONAL_paradigm; App.Interval] App.initial.

(** A closure under the PID paradigm, with the pump efficiency fault at its
    largest setting. *)
Definition pidClosure : App.ReactState :=
  App.set_faults
    {| leakage := {| active := false; value := 0 |};
       pumpEfficiency := {| active := true; value := num 80 |};
       sensorDrift := {| active := false; value := 0 |} |}
    (App.set_deployedParadigm TRADITIONAL_paradigm App.initialReact).

(** A store whose integral is 0 after accumulating an error of 10 and whose
    last error is 10. *)
Definition pidStore : App.Store :=
  App.set_lastError (num 10) (App.set_integral (num (-1)) App.initialStore).

End Example.

Module Sample.

(** A STEP waveform whose frequency was left at 0. *)
Definition slowStep : DisturbanceConfig :=
  {| type := STEP; base := num 50; amplitude := num 100; frequency := 0;
     d_active := true |}.

(** A white noise of amplitude 10 around 50. *)
Definition noise : DisturbanceConfig :=
  {| type := NOISE; base := num 50; amplitude := num 10;
     frequency := num 0.1; d_active := true |}.

(** The closure of [App.tsx] under the traditional paradigm, without
    faults. *)
Definition traditional : App.ReactState :=
  App.set_deployedParadigm Example.TRADITIONAL_paradigm App.initialReact.

(** The canvas after the traditional paradigm was applied. *)
Definition traditionalCanvas : AppCanvas.ReactState :=
  fst (AppCanvas.applyParadigm Example.TRADITIONAL_paradigm
         AppCanvas.initialReact AppCanvas.initialStore).

(** A chart of 600 by 200 pixels. *)
Definition chart : App.TrendChart.Dimensions :=
  {| App.TrendChart.width := num 600; App.TrendChart.height := num 200 |}.

(** Fifty-one ticks under the closure of the first render. *)
Definition steps51 : list (App.ReactState * Qc) :=
  repeat (App.initialReact, 0) 51.

(** A constant demand of 200. *)
Definition constant200 : DisturbanceConfig :=
  {| type := CONSTANT; base := num 200; amplitude := 0;
     frequency := num 0.1; d_active := true |}.

(** The component after two plans on the demand were queued for the same
    time, 0.25, the second with [constant200], and two ticks have run: both
    plans fire in the next tick. *)
Definition twoPlans : App.Sim :=
  App.run (math := rationalMath)
    [App.AddPlan "1" (num 0.25) App.DEMAND Example.constant120;
     App.AddPlan "2" (num 0.25) App.DEMAND constant200;
     App.Interval; App.Interval] App.initial.

(** A sample of the chart. *)
Definition sample : ChartData :=
  {| t := num 1; level := num 295; target := num 295; flowIn := num 50;
     flowOut := num 50 |}.

End Sample.

(** * Properties *)

(** ** Numbers *)

Lemma ltb_lt (x y : Qc) : ltb x y = true <-> x < y.
Proof.
  unfold ltb. rewrite Qclt_alt.
  destruct (x ?= y); split; congruence.
Qed.

Lemma ltb_ge (x y : Qc) : ltb x y = false <-> y <= x.
Proof.
  split; intros H.
  - apply Qcnot_lt_le. intros L. apply ltb_lt in L. congruence.
  - destruct (ltb x y) eqn:E; [|reflexivity].
    apply ltb_lt in E. exfalso. exact (Qcle_not_lt _ _ H E).
Qed.

Lemma eqb_eq (x y : Qc) : eqb x y = true <-> x = y.
Proof.
  unfold eqb. rewrite Qceq_alt.
  destruct (x ?= y); split; congruence.
Qed.

Lemma or_else_zero (x : Qc) : or_else x 0 = x.
Proof.
  unfold or_else. destruct (eqb x 0) eqn:E; [|reflexivity].
  apply eqb_eq in E. congruence.
Qed.

Lemma Math_max_l (x y : Qc) : x <= Math_max x y.
Proof.
  unfold Math_max. destruct (ltb x y) eqn:E.
  - apply Qclt_le_weak, ltb_lt, E.
  - apply Qcle_refl.
Qed.

Lemma Math_max_r (x y : Qc) : y <= Math_max x y.
Proof.
  unfold Math_max. destruct (ltb x y) eqn:E.
  - apply Qcle_refl.
  - apply ltb_ge, E.
Qed.

Lemma Math_min_l (x y : Qc) : Math_min x y <= x.
Proof.
  unfold Math_min. destruct (ltb y x) eqn:E.
  - apply Qclt_le_weak, ltb_lt, E.
  - apply Qcle_refl.
Qed.

Lemma Math_min_r (x y : Qc) : Math_min x y <= y.
Proof.
  unfold Math_min. destruct (ltb y x) eqn:E.
  - apply Qcle_refl.
  - apply ltb_ge, E.
Qed.

(** The pump limit: clamping to [[0, m]] lands in the interval as soon as it
    is not empty. *)
Lemma clamp_range (m x : Qc) :
  0 <= m -> 0 <= Math_max 0 (Math_min m x) <= m.
Proof.
  intros Hm. split; [apply Math_max_l|].
  unfold Math_max. destruct (ltb 0 (Math_min m x)); [apply Math_min_l|exact Hm].
Qed.

Lemma clamp_id (m x : Qc) :
  0 <= x -> x <= m -> Math_max 0 (Math_min m x) = x.
Proof.
  intros H0 Hm. unfold Math_min.
  assert (E : ltb x m = true \/ ltb x m = false)
    by (destruct (ltb x m); auto).
  destruct E as [E|E]; rewrite E.
  - unfold Math_max. destruct (ltb 0 x) eqn:F; [reflexivity|].
    apply ltb_ge in F. apply Qcle_antisym; assumption.
  - apply ltb_ge in E. assert (m = x) by (apply Qcle_antisym; assumption).
    subst m. unfold Math_max. destruct (ltb 0 x) eqn:F; [reflexivity|].
    apply ltb_ge in F. apply Qcle_antisym; assumption.
Qed.

(** Goals of linear rational arithmetic on [Qc], sent to [Q]. *)
Ltac qc_lra :=
  unfold Qcle, Qclt, num in *; cbn [this Q2Qc Qcplus Qcminus Qcopp Qcmult] in *;
  rewrite ?Qred_correct in *; lra.

(** Unfolds a computation over the store of [App] down to its reads and
    writes. *)
Ltac app_run :=
  unfold App.runControl, App.updatePhysics, App.pidLaw, App.smithLaw,
    App.mpcLaw, App.random, App.M, bind, gets, modify, ret in *;
  cbn [fst snd App.pipeBuffer App.tankLevel App.modelLevel App.delayedLevel
       App.integral App.lastError App.lastOut App.plans App.randomCalls
       App.set_pipeBuffer App.set_tankLevel App.set_modelLevel
       App.set_integral App.set_lastError App.set_lastOut App.set_plans
       App.set_randomCalls] in *.

Ltac canvas_run :=
  unfold AppCanvas.control, AppCanvas.law, AppCanvas.physics,
    AppCanvas.delayLine, AppCanvas.random, AppCanvas.M,
    bind, gets, modify, ret in *;
  cbn [fst snd AppCanvas.pipeBuffer AppCanvas.tankLevel AppCanvas.lastOut
       AppCanvas.integral AppCanvas.lastError AppCanvas.plans
       AppCanvas.randomCalls
       AppCanvas.set_pipeBuffer AppCanvas.set_tankLevel AppCanvas.set_lastOut
       AppCanvas.set_integral AppCanvas.set_lastError AppCanvas.set_plans
       AppCanvas.set_randomCalls] in *.

Section Claims.

Context {math : JSMath}.

Definition STEP_50_100 (a : bool) : DisturbanceConfig :=
  {| type := STEP; base := num 50; amplitude := num 100;
     frequency := num 0.1; d_active := a |}.

(** C9. For the STEP waveform with base 50, amplitude 100 and frequency 0.1
    (a period of 10 s), [getDisturbanceValue] returns 50 at t = 3 and 150 at
    t = 7, in the component and in its canvas variant alike. *)
Theorem C9_step_scenario (a : bool) (s : App.Store) (s' : AppCanvas.Store) :
  fst (App.getDisturbanceValue (num 3) (STEP_50_100 a) s) = num 50
  /\ fst (App.getDisturbanceValue (num 7) (STEP_50_100 a) s) = num 150
  /\ fst (AppCanvas.getDisturbanceValue (num 3) (STEP_50_100 a) s') = num 50
  /\ fst (AppCanvas.getDisturbanceValue (num 7) (STEP_50_100 a) s') = num 150.
Proof.
  repeat split; apply Qc_is_canon; vm_compute; reflexivity.
Qed.

(** *** The Smith branch *)

Lemma smithLaw_value (cl : App.ReactState) (target level demand : Qc)
  (s : App.Store) :
  fst (App.smithLaw cl target level demand s)
  = num 4 * (target - level) + num 50.
Proof.
  app_run.
  replace (num 4.0) with (num 4) by (apply Qc_is_canon; reflexivity).
  ring.
Qed.

(** C10. Before the pump limits the SMITH branch of [runControl] returns
    4 * (target - sensed level) + 50: the internal model level cancels, the
    value is the same for every demand and every store, and it is the value
    the canvas variant computes for the same error when its algorithm is
    SMITH. *)
Theorem C10_smith_is_proportional (cl : App.ReactState)
  (target level demand : Qc) (s : App.Store)
  (cl' : AppCanvas.ReactState) (s' : AppCanvas.Store) :
  algorithm (AppCanvas.deployedParadigm cl') = SMITH ->
  fst (App.smithLaw cl target level demand s)
  = num 4 * (target - level) + num 50
  /\ (forall demand2 s2,
        fst (App.smithLaw cl target level demand2 s2)
        = fst (App.smithLaw cl target level demand s))
  /\ fst (AppCanvas.law cl' (target - level) s')
     = fst (App.smithLaw cl target level demand s).
Proof.
  intros Halg. rewrite smithLaw_value. repeat split.
  - intros. apply smithLaw_value.
  - unfold AppCanvas.law, AppCanvas.isConnected.
    rewrite orb_true_r, Halg. reflexivity.
Qed.

(** *** The PID branch *)

(** C8. With tankArea = 200, an error of 10, an integral of 0 after this
    tick's accumulation, a derivative of 0 and no pump fault, the PID law
    gives 5 * 10 + 0 + 0 + 50 and [runControl] returns 100. *)
Theorem C8_pid_scenario (cl : App.ReactState) (target level demand : Qc)
  (s : App.Store) :
  algorithm (App.deployedParadigm cl) = PID ->
  tankArea (App.deployedParadigm cl) = num 200 ->
  active (pumpEfficiency (App.faults cl)) = false ->
  target - level = num 10 ->
  App.integral s + (target - level) * App.DT = 0 ->
  (target - level - App.lastError s) / App.DT = 0 ->
  fst (App.pidLaw cl (target - level) s) = num 5 * num 10 + 0 + 0 + num 50
  /\ fst (App.runControl cl target level demand s) = num 100.
Proof.
  intros Hpid Harea Hfault Herr Hint Hder.
  assert (L : fst (App.pidLaw cl (target - level) s) = num 100).
  { app_run. rewrite Hint, Harea.
    replace (gtb (Math_abs 0) (num 500)) with false by reflexivity.
    replace (gtb (num 200) (num 100)) with true by reflexivity.
    app_run. rewrite Hder, Herr.
    apply Qc_is_canon. vm_compute. reflexivity. }
  split.
  - rewrite L. apply Qc_is_canon. vm_compute. reflexivity.
  - unfold App.runControl, bind, modify, ret. cbn [fst snd].
    rewrite Hpid, L. unfold App.maxFlow. rewrite Hfault.
    apply Qc_is_canon. vm_compute. reflexivity.
Qed.

(** *** The pump limits *)

Lemma maxFlow_nonneg (cl : App.ReactState) :
  (active (pumpEfficiency (App.faults cl)) = true ->
   value (pumpEfficiency (App.faults cl)) <= num 100) ->
  0 <= App.maxFlow cl.
Proof.
  unfold App.maxFlow. intros H.
  destruct (active (pumpEfficiency (App.faults cl))).
  - specialize (H eq_refl).
    set (v := value (pumpEfficiency (App.faults cl))) in *.
    replace (v / num 100) with (v * num (1 # 100))
      by (unfold Qcdiv; f_equal; apply Qc_is_canon; reflexivity).
    unfold Qcle, num, Qcminus in *.
    cbn [this Q2Qc Qcplus Qcopp Qcmult] in *.
    rewrite ?Qred_correct in *. lra.
  - unfold Qcle. vm_compute. discriminate.
Qed.

Lemma runControl_output (cl : App.ReactState) (target level demand : Qc)
  (s : App.Store) :
  exists raw,
    fst (App.runControl cl target level demand s)
    = Math_max 0 (Math_min (App.maxFlow cl) raw)
    /\ App.lastOut (snd (App.runControl cl target level demand s))
       = fst (App.runControl cl target level demand s).
Proof.
  unfold App.runControl, bind, modify, ret. cbn [fst snd].
  eexists. split; reflexivity.
Qed.

(** C5. Whatever the algorithm, the output of [runControl] lies in
    [[0, maxFlow]], with maxFlow = 250 * (1 - value / 100) under an active
    pump-efficiency fault (of value at most 100) and 250 otherwise, and it is
    stored as [lastOut], the baseline the SMITH and MPC branches read at the
    next call. *)
Theorem C5_output_clamped (cl : App.ReactState) (target level demand : Qc)
  (s : App.Store) :
  (active (pumpEfficiency (App.faults cl)) = true ->
   value (pumpEfficiency (App.faults cl)) <= num 100) ->
  App.maxFlow cl
  = (if active (pumpEfficiency (App.faults cl))
     then num 250 * (1 - value (pumpEfficiency (App.faults cl)) / num 100)
     else num 250)
  /\ 0 <= fst (App.runControl cl target level demand s) <= App.maxFlow cl
  /\ App.lastOut (snd (App.runControl cl target level demand s))
     = fst (App.runControl cl target level demand s).
Proof.
  intros Hv. split; [reflexivity|].
  destruct (runControl_output cl target level demand s) as [raw [E L]].
  split; [|exact L].
  rewrite E. apply clamp_range, maxFlow_nonneg, Hv.
Qed.

(** *** Anti-windup *)

Lemma sign_neg (x : Qc) : x < 0 -> Math_sign x = num (-1).
Proof.
  intros H. unfold Math_sign. rewrite (proj1 (Qclt_alt x 0) H). reflexivity.
Qed.

Lemma sign_pos (x : Qc) : 0 < x -> Math_sign x = 1.
Proof.
  intros H. unfold Math_sign. rewrite (proj1 (Qcgt_alt x 0) H). reflexivity.
Qed.

Lemma antiWindup_high (x : Qc) : num 500 < x -> antiWindup x = num 500.
Proof.
  intros H. unfold antiWindup, gtb, Math_abs.
  assert (P : 0 < x) by qc_lra.
  replace (ltb x 0) with false by (symmetry; apply ltb_ge; qc_lra).
  replace (ltb (num 500) x) with true by (symmetry; apply ltb_lt; exact H).
  rewrite (sign_pos _ P). apply Qcmult_1_l.
Qed.

Lemma antiWindup_low (x : Qc) : x < - num 500 -> antiWindup x = - num 500.
Proof.
  intros H. unfold antiWindup, gtb, Math_abs.
  assert (P : x < 0) by qc_lra.
  replace (ltb x 0) with true by (symmetry; apply ltb_lt; exact P).
  replace (ltb (num 500) (- x)) with true by (symmetry; apply ltb_lt; qc_lra).
  rewrite (sign_neg _ P). apply Qc_is_canon. reflexivity.
Qed.

Lemma antiWindup_mid (x : Qc) :
  - num 500 <= x -> x <= num 500 -> antiWindup x = x.
Proof.
  intros L H. unfold antiWindup, gtb, Math_abs.
  destruct (ltb x 0) eqn:N.
  - replace (ltb (num 500) (- x)) with false
      by (symmetry; apply ltb_ge; qc_lra).
    reflexivity.
  - replace (ltb (num 500) x) with false by (symmetry; apply ltb_ge; exact H).
    reflexivity.
Qed.

Lemma antiWindup_range (x : Qc) :
  - num 500 <= antiWindup x <= num 500.
Proof.
  destruct (Qclt_le_dec (num 500) x) as [H|H].
  - rewrite antiWindup_high by exact H. split; qc_lra.
  - destruct (Qclt_le_dec x (- num 500)) as [L|L].
    + rewrite antiWindup_low by exact L. split; qc_lra.
    + rewrite antiWindup_mid by assumption. split; assumption.
Qed.

Lemma abs_le (x b : Qc) : - b <= x -> x <= b -> Math_abs x <= b.
Proof.
  intros L H. unfold Math_abs. destruct (ltb x 0); [qc_lra|exact H].
Qed.

(** What a call of [runControl] under PID does to the integral. *)
Lemma runControl_integral (cl : App.ReactState) (target level demand : Qc)
  (s : App.Store) :
  algorithm (App.deployedParadigm cl) = PID ->
  App.integral (snd (App.runControl cl target level demand s))
  = antiWindup (App.integral s + (target - level) * App.DT).
Proof.
  intros Hpid. unfold App.runControl. rewrite Hpid. app_run.
  unfold antiWindup.
  destruct (gtb (Math_abs (App.integral s + (target - level) * App.DT))
              (num 500)); reflexivity.
Qed.

Lemma archimedean (d : Qc) :
  0 < d -> exists K : nat, num 1000 <= of_nat K * d.
Proof.
  intros H. exists (1000 * Pos.to_nat (Qden d))%nat.
  unfold Qcle, Qclt, of_nat, num in *.
  cbn [this Q2Qc Qcmult] in *. rewrite ?Qred_correct in *.
  destruct d as [[p q] c]. cbn [this Qnum Qden] in *.
  unfold Qle, Qlt, Qmult, inject_Z in *. cbn [Qnum Qden] in *.
  rewrite Nat2Z.inj_mul, positive_nat_Z. cbn [Z.of_nat]. 
  change (Z.pos (1 * q)) with (Z.pos q). nia.
Qed.

Section Saturation.

Variables (cl : App.ReactState) (target level demand : Qc) (s : App.Store).
Hypothesis Hpid : algorithm (App.deployedParadigm cl) = PID.
Hypothesis Hpos : 0 < target - level.

Let acc (n : nat) : Qc :=
  App.integral (App.repeatControl cl target level demand n s).
Let d : Qc := (target - level) * App.DT.

Lemma acc_step (n : nat) : acc (S n) = antiWindup (acc n + d).
Proof. apply runControl_integral, Hpid. Qed.

Lemma d_pos : 0 < d.
Proof. unfold d, App.DT. qc_lra. Qed.

Lemma acc_range (n : nat) : - num 500 <= acc (S n) <= num 500.
Proof. rewrite acc_step. apply antiWindup_range. Qed.

Lemma acc_stays (n : nat) : acc n = num 500 -> acc (S n) = num 500.
Proof.
  intros E. rewrite acc_step, E. apply antiWindup_high.
  pose proof d_pos. qc_lra.
Qed.

Lemma acc_climbs (k : nat) :
  acc (S k) = num 500 \/ - num 500 + of_nat k * d <= acc (S k).
Proof.
  induction k as [|k IH].
  - right. replace (of_nat 0) with 0 by reflexivity.
    destruct (acc_range 0) as [L _]. rewrite Qcmult_0_l, Qcplus_0_r. exact L.
  - destruct IH as [E|L]; [left; apply acc_stays, E|].
    destruct (acc_range k) as [Lo Hi].
    destruct (Qclt_le_dec (num 500) (acc (S k) + d)) as [G|G].
    + left. rewrite acc_step. apply antiWindup_high, G.
    + right. rewrite (acc_step (S k)), antiWindup_mid.
      * replace (of_nat (S k)) with (of_nat k + 1)
          by (apply Qc_is_canon; unfold of_nat; cbn [this Q2Qc Qcplus];
              rewrite ?Qred_correct, Nat2Z.inj_succ, <- Z.add_1_r, inject_Z_plus;
              reflexivity).
        rewrite Qcmult_plus_distr_l, Qcmult_1_l.
        generalize dependent (of_nat k * d). intros x L. qc_lra.
      * pose proof d_pos. qc_lra.
      * exact G.
Qed.

Lemma acc_saturates : exists N, forall n, (N <= n)%nat -> acc n = num 500.
Proof.
  destruct (archimedean d d_pos) as [K HK].
  exists (S K). intros n Hn.
  induction Hn as [|n Hn IH]; [|apply acc_stays, IH].
  destruct (acc_climbs K) as [E|L]; [exact E|].
  destruct (acc_range K) as [_ Hi].
  apply Qcle_antisym; [exact Hi|].
  generalize dependent (of_nat K * d). intros x HK L. qc_lra.
Qed.

End Saturation.

(** C4. Under PID every call of [runControl] leaves the integral within 500
    in absolute value, and with a constant positive error the integral
    reaches exactly 500 after finitely many calls and stays there. *)
Theorem C4_integral_bounded_at_500 (cl : App.ReactState)
  (target level demand : Qc) (s : App.Store) :
  algorithm (App.deployedParadigm cl) = PID ->
  0 < target - level ->
  (forall target' level' demand' s',
      Math_abs (App.integral (snd (App.runControl cl target' level' demand' s')))
      <= num 500)
  /\ (forall n,
        Math_abs (App.integral
                    (App.repeatControl cl target level demand (S n) s))
        <= num 500)
  /\ (exists N, forall n, (N <= n)%nat ->
        App.integral (App.repeatControl cl target level demand n s) = num 500).
Proof.
  intros Hpid Hpos. split; [|split].
  - intros. rewrite runControl_integral by exact Hpid.
    apply abs_le; apply antiWindup_range.
  - intros n. apply abs_le; apply (acc_range cl target level demand s Hpid n).
  - exact (acc_saturates cl target level demand s Hpid Hpos).
Qed.

(** *** The transport delay *)

Lemma BUFFER_SIZE_50 : to_nat App.BUFFER_SIZE = 50%nat.
Proof. vm_compute. reflexivity. Qed.

Lemma updatePhysics_buffer (cl : App.ReactState) (p dm : Qc) (s : App.Store)
  (x : Qc) (b : list Qc) :
  App.pipeBuffer s = x :: b ->
  fst (App.updatePhysics cl p dm s) = x
  /\ App.pipeBuffer (snd (App.updatePhysics cl p dm s)) = b ++ [p].
Proof.
  intros B. app_run. rewrite B. cbn [hd_error tl opt_or_else].
  split; [apply or_else_zero|reflexivity].
Qed.

Lemma feed_spec (calls : list (App.ReactState * Qc * Qc)) :
  forall s : App.Store,
    App.pipeBuffer s <> [] ->
    fst (App.feed calls s)
    = firstn (List.length calls) (App.pipeBuffer s ++ pumpInflows calls)
    /\ App.pipeBuffer (snd (App.feed calls s))
       = skipn (List.length calls) (App.pipeBuffer s ++ pumpInflows calls).
Proof.
  induction calls as [|[[cl p] dm] rest IH]; intros s Hne.
  - cbn [App.feed fst snd List.length firstn skipn pumpInflows map].
    rewrite app_nil_r. split; reflexivity.
  - destruct (App.pipeBuffer s) as [|x b] eqn:B; [congruence|].
    destruct (updatePhysics_buffer cl p dm s x b B) as [U1 U2].
    cbn [App.feed fst snd].
    destruct (IH (snd (App.updatePhysics cl p dm s))) as [I1 I2].
    { rewrite U2. destruct b; discriminate. }
    rewrite I1, I2, U1, U2.
    cbn [pumpInflows map fst snd List.length].
    rewrite <- app_assoc. split; reflexivity.
Qed.

(** In [App.tsx] the buffer is a pure delay of [BUFFER_SIZE] calls. *)
Lemma feed_delay (calls : list (App.ReactState * Qc * Qc)) (s : App.Store)
  (n : nat) :
  List.length (App.pipeBuffer s) = to_nat App.BUFFER_SIZE ->
  (n + to_nat App.BUFFER_SIZE < List.length calls)%nat ->
  nth_error (fst (App.feed calls s)) (n + to_nat App.BUFFER_SIZE)
  = nth_error (pumpInflows calls) n.
Proof.
  intros HL Hn.
  destruct (feed_spec calls s) as [E _].
  { intros B. rewrite B, BUFFER_SIZE_50 in HL. discriminate. }
  rewrite E, nth_error_firstn.
  replace (n + to_nat App.BUFFER_SIZE <? List.length calls)%nat with true
    by (symmetry; apply Nat.ltb_lt; exact Hn).
  rewrite nth_error_app2 by lia.
  f_equal. lia.
Qed.

Lemma isConnected_true (cl : AppCanvas.ReactState) :
  AppCanvas.isConnected cl = true.
Proof. unfold AppCanvas.isConnected. apply orb_true_r. Qed.

Section CanvasDelay.

Variable cl : AppCanvas.ReactState.

Let idx : Z := Qfloor (AppCanvas.nodeDelay cl / AppCanvas.DT).

Hypothesis idx_range : (1 <= idx <= 500)%Z.

Let k : nat := (500 - Z.to_nat idx)%nat.

Lemma delayLine_spec (out : Qc) (s : AppCanvas.Store) :
  List.length (AppCanvas.pipeBuffer s) = 500%nat ->
  fst (AppCanvas.delayLine cl out s)
  = nth_error (tl (AppCanvas.pipeBuffer s) ++ [out]) k
  /\ AppCanvas.pipeBuffer (snd (AppCanvas.delayLine cl out s))
     = tl (AppCanvas.pipeBuffer s) ++ [out].
Proof.
  intros HL. canvas_run.
  rewrite length_app, HL.
  replace (gtb (of_nat (500 + List.length [out])) AppCanvas.BUFFER_SIZE)
    with true by (vm_compute; reflexivity).
  canvas_run.
  destruct (AppCanvas.pipeBuffer s) as [|x b] eqn:B; [discriminate|].
  cbn [tl app]. cbn [List.length] in HL.
  assert (Hb : List.length (b ++ [out]) = 500%nat)
    by (rewrite length_app; cbn [List.length]; lia).
  rewrite Hb. fold idx.
  replace (Z.of_nat 500 >=? idx)%Z with true by (symmetry; apply Z.geb_le; lia).
  unfold AppCanvas.lookBack. rewrite Hb.
  replace (Z.of_nat 500 - idx <? 0)%Z with false
    by (symmetry; apply Z.ltb_ge; lia).
  replace (Z.to_nat (Z.of_nat 500 - idx)) with k by (unfold k; lia).
  split; reflexivity.
Qed.

Lemma pushAll_spec (outs : list Qc) :
  forall (s : AppCanvas.Store) (j : nat),
    List.length (AppCanvas.pipeBuffer s) = 500%nat ->
    (j < List.length outs)%nat ->
    nth_error (fst (AppCanvas.pushAll cl outs s)) j
    = Some (nth_error (AppCanvas.pipeBuffer s ++ outs) (j + 1 + k)).
Proof.
  induction outs as [|o rest IH]; intros s j HL Hj; [cbn in Hj; lia|].
  destruct (delayLine_spec o s HL) as [D1 D2].
  destruct (AppCanvas.pipeBuffer s) as [|x b] eqn:B; [discriminate|].
  cbn [tl] in D1, D2. cbn [List.length] in HL, Hj.
  assert (Hb : List.length (b ++ [o]) = 500%nat)
    by (rewrite length_app; cbn [List.length]; lia).
  cbn [AppCanvas.pushAll fst snd].
  destruct j as [|j].
  - cbn [nth_error]. rewrite D1. f_equal.
    replace (0 + 1 + k)%nat with (S k) by lia.
    cbn [app nth_error].
    change (o :: rest) with ([o] ++ rest). rewrite app_assoc.
    symmetry. apply nth_error_app1. rewrite Hb. unfold k. lia.
  - cbn [nth_error]. rewrite IH; [|rewrite D2; exact Hb|lia].
    rewrite D2. f_equal.
    replace (S j + 1 + k)%nat with (S (j + 1 + k)) by lia.
    cbn [app nth_error]. rewrite <- app_assoc. reflexivity.
Qed.

(** In the canvas variant the output pushed at call [n] is the inflow read
    [idx - 1] calls later. *)
Lemma canvas_delay (outs : list Qc) (s : AppCanvas.Store) (n : nat) :
  List.length (AppCanvas.pipeBuffer s) = 500%nat ->
  (n + (Z.to_nat idx - 1) < List.length outs)%nat ->
  nth_error (fst (AppCanvas.pushAll cl outs s)) (n + (Z.to_nat idx - 1))
  = Some (nth_error outs n).
Proof.
  intros HL Hn. rewrite pushAll_spec by assumption. f_equal.
  rewrite nth_error_app2 by (unfold k; lia).
  f_equal. unfold k. lia.
Qed.

Lemma canvas_getDisturbanceValue_buffer (t0 : Qc) (c : DisturbanceConfig)
  (s : AppCanvas.Store) :
  AppCanvas.pipeBuffer (snd (AppCanvas.getDisturbanceValue t0 c s))
  = AppCanvas.pipeBuffer s.
Proof.
  unfold AppCanvas.getDisturbanceValue. destruct (type c); reflexivity.
Qed.

Lemma canvas_control_buffer (error : Qc) (s : AppCanvas.Store) :
  AppCanvas.pipeBuffer (snd (AppCanvas.control cl error s))
  = AppCanvas.pipeBuffer s.
Proof.
  unfold AppCanvas.control, AppCanvas.law.
  rewrite isConnected_true.
  destruct (algorithm (AppCanvas.deployedParadigm cl)); canvas_run;
    try reflexivity.
  destruct (gtb (Math_abs (AppCanvas.integral s + error * AppCanvas.DT))
              (num 500)); reflexivity.
Qed.

(** With the delay in range the look-up reads a number: the tick goes
    through, and it leaves a non-negative level. *)
Lemma canvas_tick_total (t0 : Qc) (s : AppCanvas.Store) :
  List.length (AppCanvas.pipeBuffer s) = 500%nat ->
  exists out s',
    AppCanvas.tick cl t0 s = Some (out, s') /\ 0 <= AppCanvas.tankLevel s'.
Proof.
  intros HL. unfold AppCanvas.tick.
  match goal with
  | |- context [AppCanvas.delayLine cl ?o ?s1] =>
      destruct (delayLine_spec o s1) as [D _];
      [rewrite canvas_control_buffer, !canvas_getDisturbanceValue_buffer;
       exact HL|];
      destruct (fst (AppCanvas.delayLine cl o s1)) as [inflow|] eqn:E
  end.
  - eexists. eexists. split; [reflexivity|].
    unfold AppCanvas.physics, bind, gets. cbn [fst snd].
    rewrite isConnected_true. unfold modify.
    cbn [snd AppCanvas.tankLevel AppCanvas.set_tankLevel].
    apply Math_max_l.
  - exfalso. symmetry in D. apply nth_error_None in D.
    rewrite length_app in D. cbn [List.length] in D.
    rewrite canvas_control_buffer, !canvas_getDisturbanceValue_buffer in D.
    cbn [AppCanvas.pipeBuffer AppCanvas.set_plans] in D. clear E.
    destruct (AppCanvas.pipeBuffer s) as [|x b]; [discriminate|].
    cbn [tl List.length] in *. unfold k in D. lia.
Qed.

End CanvasDelay.

(** In [App.tsx] the delay holds for whole ticks. *)

Lemma keeps_buffer_ret {A : Type} (a : A) : keeps_buffer (ret a).
Proof. intros s. reflexivity. Qed.

Lemma keeps_buffer_bind {A B : Type} (m : App.M A) (f : A -> App.M B) :
  keeps_buffer m -> (forall a, keeps_buffer (f a)) -> keeps_buffer (bind m f).
Proof. intros Hm Hf s. unfold bind. rewrite Hf. apply Hm. Qed.

Lemma keeps_buffer_gets {A : Type} (f : App.Store -> A) :
  keeps_buffer (gets f).
Proof. intros s. reflexivity. Qed.

Lemma keeps_buffer_modify (g : App.Store -> App.Store) :
  (forall s, App.pipeBuffer (g s) = App.pipeBuffer s) ->
  keeps_buffer (modify g).
Proof. intros H s. apply H. Qed.

Lemma keeps_buffer_if {A : Type} (b : bool) (m1 m2 : App.M A) :
  keeps_buffer m1 -> keeps_buffer m2 -> keeps_buffer (if b then m1 else m2).
Proof. destruct b; auto. Qed.

Ltac keeps_buffer_step :=
  first
    [ apply keeps_buffer_ret
    | apply keeps_buffer_bind; [|intros ?]
    | apply keeps_buffer_if
    | apply keeps_buffer_gets
    | apply keeps_buffer_modify; reflexivity ].

Lemma keeps_buffer_random : keeps_buffer App.random.
Proof. intros s. reflexivity. Qed.

Lemma keeps_buffer_getDisturbanceValue (t0 : Qc) (c : DisturbanceConfig) :
  keeps_buffer (App.getDisturbanceValue t0 c).
Proof.
  unfold App.getDisturbanceValue.
  destruct (type c); repeat keeps_buffer_step; apply keeps_buffer_random.
Qed.

Lemma keeps_buffer_lookahead (cl : App.ReactState) (steps : nat) :
  forall i buffer output predictedLevel,
    keeps_buffer (App.lookahead cl steps i buffer output predictedLevel).
Proof.
  induction steps as [|steps IH]; intros; cbn [App.lookahead].
  - apply keeps_buffer_ret.
  - apply keeps_buffer_bind; [apply keeps_buffer_getDisturbanceValue|].
    intros a. apply IH.
Qed.

Lemma keeps_buffer_runControl (cl : App.ReactState)
  (target level demand : Qc) :
  keeps_buffer (App.runControl cl target level demand).
Proof.
  unfold App.runControl. apply keeps_buffer_bind.
  - destruct (algorithm (App.deployedParadigm cl)).
    + unfold App.pidLaw. repeat keeps_buffer_step.
    + unfold App.smithLaw. repeat keeps_buffer_step.
    + unfold App.mpcLaw. keeps_buffer_step; [keeps_buffer_step|].
      keeps_buffer_step; [apply keeps_buffer_lookahead|].
      repeat keeps_buffer_step.
  - intros a. repeat keeps_buffer_step.
Qed.

(** A tick shifts the buffer once: the head is the inflow of the tick and
    the pump output of the tick goes to the tail. *)
Lemma tick_buffer (cl : App.ReactState) (t0 : Qc) (s : App.Store)
  (x : Qc) (b : list Qc) :
  App.pipeBuffer s = x :: b ->
  App.tankInflow (fst (App.tick cl t0 s)) = x
  /\ App.pipeBuffer (snd (App.tick cl t0 s))
     = b ++ [flowIn (App.sample (fst (App.tick cl t0 s)))].
Proof.
  intros B.
  unfold App.tick, App.dynamics, bind, gets, modify, ret.
  cbn [fst snd App.tankInflow App.sample flowIn].
  match goal with
  | |- context [App.updatePhysics cl ?p ?d ?s1] =>
      destruct (updatePhysics_buffer cl p d s1 x b) as [U1 U2]
  end.
  { rewrite keeps_buffer_runControl.
    cbn [snd App.random App.pipeBuffer App.set_randomCalls].
    rewrite !keeps_buffer_getDisturbanceValue. exact B. }
  split; assumption.
Qed.

Lemma ticks_spec (steps : list (App.ReactState * Qc)) :
  forall s : App.Store,
    App.pipeBuffer s <> [] ->
    map snd (App.ticks steps s)
    = firstn (List.length steps)
        (App.pipeBuffer s ++ map fst (App.ticks steps s)).
Proof.
  induction steps as [|[cl t0] rest IH]; intros s Hne; [reflexivity|].
  destruct (App.pipeBuffer s) as [|x b] eqn:B; [congruence|].
  destruct (tick_buffer cl t0 s x b B) as [T1 T2].
  cbn [App.ticks map fst snd List.length]. rewrite T1.
  rewrite IH by (rewrite T2; destruct b; discriminate).
  rewrite T2, <- app_assoc. reflexivity.
Qed.

Lemma ticks_length (steps : list (App.ReactState * Qc)) :
  forall s, List.length (App.ticks steps s) = List.length steps.
Proof.
  induction steps as [|[cl t0] rest IH]; intros s; [reflexivity|].
  cbn [App.ticks List.length]. rewrite IH. reflexivity.
Qed.

(** In [App.tsx], whatever the closures and times of the ticks, the inflow
    reaching the tank at tick [n + BUFFER_SIZE] is the pump output of tick
    [n]. *)
Lemma ticks_delay (steps : list (App.ReactState * Qc)) (s : App.Store)
  (n : nat) :
  List.length (App.pipeBuffer s) = to_nat App.BUFFER_SIZE ->
  (n + to_nat App.BUFFER_SIZE < List.length steps)%nat ->
  nth_error (map snd (App.ticks steps s)) (n + to_nat App.BUFFER_SIZE)
  = nth_error (map fst (App.ticks steps s)) n.
Proof.
  intros HL Hn.
  rewrite ticks_spec
    by (intros B; rewrite B, BUFFER_SIZE_50 in HL; discriminate).
  rewrite nth_error_firstn.
  replace (n + to_nat App.BUFFER_SIZE <? List.length steps)%nat with true
    by (symmetry; apply Nat.ltb_lt; exact Hn).
  rewrite nth_error_app2 by lia.
  f_equal. lia.
Qed.

(** C3. The canvas variant pushes before it reads: with the pipe delay of
    5 s of the initial canvas ([delaySamples] = 50), an impulse pushed at
    call 0 of the buffer stage is the inflow read at call 49, and call 50
    reads the output pushed at call 1.  Likewise in its first 51 ticks: the
    pump output of the first tick (50) is the inflow of the 50th tick, and
    the 51st tick receives the output of the second (50.25). *)
Theorem C3_canvas_delay_is_49 :
  let r := fst (AppCanvas.pushAll AppCanvas.initialReact impulse
                  AppCanvas.initialStore) in
  delaySamples (AppCanvas.nodeDelay AppCanvas.initialReact) AppCanvas.DT
  = 50%nat
  /\ nth_error impulse 0 = Some (num 7)
  /\ nth_error impulse 1 = Some 0
  /\ nth_error r 49 = Some (Some (num 7))
  /\ nth_error r 50 = Some (Some 0)
  /\ exists l,
       AppCanvas.ticks AppCanvas.initialReact 51 0 AppCanvas.initialStore
       = Some l
       /\ option_map fst (nth_error l 0) = Some (num 50)
       /\ option_map fst (nth_error l 1) = Some (num 50.25)
       /\ option_map snd (nth_error l 49) = Some (num 50)
       /\ option_map snd (nth_error l 50) = Some (num 50.25).
Proof.
  cbv zeta. repeat split; try (vm_compute; reflexivity).
  eexists. split; [vm_compute; reflexivity|].
  repeat split; cbn [nth_error option_map fst snd]; f_equal; apply Qc_is_canon; vm_compute; reflexivity.
Qed.

(** *** The tank level *)

Lemma updatePhysics_level (cl : App.ReactState) (pumpInflow demandOutflow : Qc)
  (s : App.Store) :
  0 <= App.tankLevel (snd (App.updatePhysics cl pumpInflow demandOutflow s)).
Proof. app_run. apply Math_max_l. Qed.

Lemma tick_level (cl : App.ReactState) (t0 : Qc) (s : App.Store) :
  0 <= App.tankLevel (snd (App.tick cl t0 s)).
Proof.
  unfold App.tick, App.dynamics, bind, gets, ret. cbn [fst snd].
  apply updatePhysics_level.
Qed.

Lemma physics_level (cl : AppCanvas.ReactState) (inflow demand : Qc)
  (s : AppCanvas.Store) :
  0 <= AppCanvas.tankLevel (snd (AppCanvas.physics cl inflow demand s)).
Proof.
  unfold AppCanvas.physics, bind, gets. cbn [fst snd].
  rewrite isConnected_true. unfold modify. cbn [fst snd AppCanvas.tankLevel AppCanvas.set_tankLevel].
  apply Math_max_l.
Qed.

Lemma canvas_tick_level (cl : AppCanvas.ReactState) (t0 : Qc)
  (s s' : AppCanvas.Store) (out : AppCanvas.TickOut) :
  AppCanvas.tick cl t0 s = Some (out, s') -> 0 <= AppCanvas.tankLevel s'.
Proof.
  unfold AppCanvas.tick.
  destruct (fst (AppCanvas.delayLine _ _ _)); [|discriminate].
  intros E. injection E as _ <-. apply physics_level.
Qed.

(** Each event either leaves the level as it was or leaves it non-negative. *)
Lemma step_level (w : App.Sim) (e : App.Event) :
  App.tankLevel (App.store (App.step w e)) = App.tankLevel (App.store w)
  \/ 0 <= App.tankLevel (App.store (App.step w e)).
Proof.
  destruct e; cbn [App.step]; try (left; reflexivity).
  - unfold App.interval. destruct (App.isRunning (App.closure w)).
    + right. apply tick_level.
    + left. reflexivity.
  - right. unfold Qcle. vm_compute. discriminate.
Qed.

Lemma run_level (es : list App.Event) (w : App.Sim) :
  App.tankLevel (App.store (App.run es w)) = App.tankLevel (App.store w)
  \/ 0 <= App.tankLevel (App.store (App.run es w)).
Proof.
  revert w. induction es as [|e es IH]; intros w.
  - left. reflexivity.
  - change (App.run (e :: es) w) with (App.run es (App.step w e)).
    destruct (IH (App.step w e)) as [E|P]; [|right; exact P].
    rewrite E. apply step_level.
Qed.

Lemma run_app (es es' : list App.Event) (w : App.Sim) :
  App.run (es ++ es') w = App.run es' (App.run es w).
Proof. apply fold_left_app. Qed.

(** C2. The true tank level is non-negative after every physics update:
    after [updatePhysics] and after a whole tick from any store, under any
    closure (paradigm, patterns, faults); after the physics update of the
    canvas variant and after its whole tick, which goes through when the
    pipe delay is between one and 500 samples; and from the first tick on
    along every sequence of events of the component (ticks, deployments,
    resets, fault and pattern changes). *)
Theorem C2_level_never_negative :
  (forall cl pumpInflow demandOutflow s,
      0 <= App.tankLevel (snd (App.updatePhysics cl pumpInflow demandOutflow s)))
  /\ (forall cl t0 s, 0 <= App.tankLevel (snd (App.tick cl t0 s)))
  /\ (forall cl inflow demand s,
        0 <= AppCanvas.tankLevel (snd (AppCanvas.physics cl inflow demand s)))
  /\ (forall cl t0 s,
        (1 <= Qfloor (AppCanvas.nodeDelay cl / AppCanvas.DT) <= 500)%Z ->
        List.length (AppCanvas.pipeBuffer s) = 500%nat ->
        exists out s',
          AppCanvas.tick cl t0 s = Some (out, s')
          /\ 0 <= AppCanvas.tankLevel s')
  /\ (forall es es' w,
        let w1 := App.run es w in
        let w2 := App.run (es ++ App.Interval :: es') w in
        App.isRunning (App.closure w1) = false
        \/ 0 <= App.tankLevel (App.store w2)).
Proof.
  split; [exact updatePhysics_level|].
  split; [exact tick_level|].
  split; [exact physics_level|].
  split; [intros cl t0 s Hidx HL; exact (canvas_tick_total cl Hidx t0 s HL)|].
  intros es es' w w1 w2. subst w1 w2. rewrite run_app.
    change (App.run (App.Interval :: es') (App.run es w))
      with (App.run es' (App.interval (App.run es w))).
    destruct (App.isRunning (App.closure (App.run es w))) eqn:R;
      [right|left; reflexivity].
    destruct (run_level es' (App.interval (App.run es w))) as [E|P];
      [|exact P].
  rewrite E. unfold App.interval. rewrite R. apply tick_level.
Qed.

(** *** Deployment *)

Lemma runControl_after_deploy (cl : App.ReactState) (target level demand : Qc)
  (s1 s2 : App.Store) :
  algorithm (App.deployedParadigm cl) <> MPC ->
  App.integral s1 = App.integral s2 ->
  App.lastError s1 = App.lastError s2 ->
  fst (App.runControl cl target level demand s1)
  = fst (App.runControl cl target level demand s2).
Proof.
  intros Halg Hi He. unfold App.runControl, bind, modify, ret. cbn [fst snd].
  destruct (algorithm (App.deployedParadigm cl)); [| |congruence].
  - do 2 f_equal. app_run. rewrite Hi.
    destruct (gtb (Math_abs (App.integral s2 + (target - level) * App.DT))
                (num 500)); app_run; rewrite ?He; reflexivity.
  - rewrite !smithLaw_value. reflexivity.
Qed.

Lemma getDisturbanceValue_lastOut (t0 : Qc) (c : DisturbanceConfig)
  (s : App.Store) :
  App.lastOut (snd (App.getDisturbanceValue t0 c s)) = App.lastOut s.
Proof.
  unfold App.getDisturbanceValue. destruct (type c); app_run; reflexivity.
Qed.

Lemma lookahead_lastOut (cl : App.ReactState) (steps : nat) :
  forall i buffer output predictedLevel s,
    App.lastOut (snd (App.lookahead cl steps i buffer output predictedLevel s))
    = App.lastOut s.
Proof.
  induction steps as [|steps IH]; intros; cbn [App.lookahead].
  - reflexivity.
  - unfold bind at 1. cbn [fst snd]. rewrite IH.
    apply getDisturbanceValue_lastOut.
Qed.

(** The output of [runControl] under MPC: the last output plus twice the
    error that the look-ahead predicts, within the pump limits. *)
Lemma runControl_mpc (cl : App.ReactState) (target level demand : Qc)
  (s : App.Store) :
  algorithm (App.deployedParadigm cl) = MPC ->
  fst (App.runControl cl target level demand s)
  = Math_max 0
      (Math_min (App.maxFlow cl)
         (App.lastOut s
          + (target
             - fst (App.lookahead cl 50 0 (App.pipeBuffer s) 0 level s))
            * num 2.0)).
Proof.
  intros Halg. unfold App.runControl. rewrite Halg.
  unfold App.mpcLaw, bind, gets, modify, ret. cbn [fst snd].
  rewrite lookahead_lastOut. reflexivity.
Qed.

(** C6 (amended). Deploying a paradigm, whichever its algorithm, zeroes the
    integral accumulator and the last error and leaves the Smith model level
    and the last commanded output as they were.  In the closure of the new
    paradigm, when the deployed algorithm is PID or SMITH the output of the
    next [runControl] is the same whatever the store was before the
    deployment; when it is MPC the output still starts from the last output
    of before the deployment, to which it adds twice the predicted error. *)
Theorem C6_deploy_resets_integral_and_error (p : DesignParadigm)
  (w w2 : App.Sim) (cl : App.ReactState) (target level demand : Qc) :
  let s' := App.store (App.deployParadigm p w) in
  App.integral s' = 0
  /\ App.lastError s' = 0
  /\ App.modelLevel s' = App.modelLevel (App.store w)
  /\ App.lastOut s' = App.lastOut (App.store w)
  /\ (App.deployedParadigm cl = p ->
      match algorithm p with
      | MPC =>
          fst (App.runControl cl target level demand s')
          = Math_max 0
              (Math_min (App.maxFlow cl)
                 (App.lastOut (App.store w)
                  + (target
                     - fst (App.lookahead cl 50 0
                              (App.pipeBuffer (App.store w)) 0 level s'))
                    * num 2.0))
      | _ =>
          fst (App.runControl cl target level demand s')
          = fst (App.runControl cl target level demand
                   (App.store (App.deployParadigm p w2)))
      end).
Proof.
  intros s'. subst s'. do 4 (split; [reflexivity|]).
  intros Hcl. destruct (algorithm p) eqn:Halg.
  - apply runControl_after_deploy;
      [rewrite Hcl, Halg; discriminate| |]; reflexivity.
  - apply runControl_after_deploy;
      [rewrite Hcl, Halg; discriminate| |]; reflexivity.
  - rewrite runControl_mpc by (rewrite Hcl; exact Halg). reflexivity.
Qed.

(** *** Reset *)

Lemma map_const_repeat {A B : Type} (b : B) (l : list A) :
  map (fun _ => b) l = repeat b (List.length l).
Proof. induction l as [|a l IH]; cbn; [|rewrite IH]; reflexivity. Qed.

(** C7 (amended). The reset button sets the time to 0, empties the history,
    puts the tank level back to 295 and fills the delay buffer with zeros,
    keeping its length; the plan queue, the integral, the last error, the
    Smith model level, the last output and the installed closure are left
    as they were. *)
Theorem C7_reset_level_and_buffer (w : App.Sim) :
  let w' := App.reset w in
  App.time (App.react w') = 0
  /\ App.history (App.react w') = []
  /\ App.tankLevel (App.store w') = num 295
  /\ App.pipeBuffer (App.store w')
     = repeat 0 (List.length (App.pipeBuffer (App.store w)))
  /\ App.plans (App.store w') = App.plans (App.store w)
  /\ App.integral (App.store w') = App.integral (App.store w)
  /\ App.lastError (App.store w') = App.lastError (App.store w)
  /\ App.modelLevel (App.store w') = App.modelLevel (App.store w)
  /\ App.lastOut (App.store w') = App.lastOut (App.store w)
  /\ App.closure w' = App.closure w.
Proof.
  cbv zeta. unfold App.reset. cbn [App.react App.store App.closure].
  repeat split. cbn [App.pipeBuffer App.set_pipeBuffer].
  apply map_const_repeat.
Qed.

(** *** Plans *)

Lemma plan_free_ret {A : Type} (a : A) : plan_free (ret a).
Proof. intros ps s. reflexivity. Qed.

Lemma plan_free_bind {A B : Type} (m : App.M A) (f : A -> App.M B) :
  plan_free m -> (forall a, plan_free (f a)) -> plan_free (bind m f).
Proof.
  intros Hm Hf ps s. unfold bind. rewrite Hm. cbn [fst snd]. apply Hf.
Qed.

Lemma plan_free_gets {A : Type} (f : App.Store -> A) :
  (forall ps s, f (App.set_plans ps s) = f s) -> plan_free (gets f).
Proof. intros H ps s. unfold gets. rewrite H. reflexivity. Qed.

Lemma plan_free_modify (g : App.Store -> App.Store) :
  (forall ps s, g (App.set_plans ps s) = App.set_plans ps (g s)) ->
  plan_free (modify g).
Proof. intros H ps s. unfold modify. rewrite H. reflexivity. Qed.

Lemma plan_free_if {A : Type} (b : bool) (m1 m2 : App.M A) :
  plan_free m1 -> plan_free m2 -> plan_free (if b then m1 else m2).
Proof. destruct b; auto. Qed.

Ltac plan_free_step :=
  first
    [ apply plan_free_ret
    | apply plan_free_bind; [|intros ?]
    | apply plan_free_if
    | apply plan_free_gets; reflexivity
    | apply plan_free_modify; reflexivity ].

Lemma plan_free_random : plan_free App.random.
Proof. intros ps s. reflexivity. Qed.

Lemma plan_free_getDisturbanceValue (t0 : Qc) (c : DisturbanceConfig) :
  plan_free (App.getDisturbanceValue t0 c).
Proof.
  unfold App.getDisturbanceValue.
  destruct (type c); repeat plan_free_step; apply plan_free_random.
Qed.

Lemma plan_free_lookahead (cl : App.ReactState) (steps : nat) :
  forall i buffer output predictedLevel,
    plan_free (App.lookahead cl steps i buffer output predictedLevel).
Proof.
  induction steps as [|steps IH]; intros; cbn [App.lookahead].
  - apply plan_free_ret.
  - apply plan_free_bind; [apply plan_free_getDisturbanceValue|].
    intros a. apply IH.
Qed.

Lemma plan_free_runControl (cl : App.ReactState) (target level demand : Qc) :
  plan_free (App.runControl cl target level demand).
Proof.
  unfold App.runControl. apply plan_free_bind.
  - destruct (algorithm (App.deployedParadigm cl)).
    + unfold App.pidLaw. repeat plan_free_step.
    + unfold App.smithLaw. repeat plan_free_step.
    + unfold App.mpcLaw. plan_free_step; [plan_free_step|].
      plan_free_step; [apply plan_free_lookahead|]. repeat plan_free_step.
  - intros a. repeat plan_free_step.
Qed.

Lemma plan_free_updatePhysics (cl : App.ReactState) (p dm : Qc) :
  plan_free (App.updatePhysics cl p dm).
Proof. unfold App.updatePhysics. repeat plan_free_step. Qed.

Lemma plan_free_dynamics (cl : App.ReactState) (nextT : Qc) :
  plan_free (App.dynamics cl nextT).
Proof.
  unfold App.dynamics.
  plan_free_step; [apply plan_free_getDisturbanceValue|].
  plan_free_step; [apply plan_free_getDisturbanceValue|].
  plan_free_step; [plan_free_step|].
  plan_free_step; [apply plan_free_random|].
  plan_free_step; [apply plan_free_runControl|].
  plan_free_step; [apply plan_free_updatePhysics|].
  repeat plan_free_step.
Qed.

(** The sample of a tick is the one its steps 2 to 6 produce from the store
    as it was before the plans were checked. *)
Lemma tick_sample (cl : App.ReactState) (t0 : Qc) (s : App.Store) :
  App.sample (fst (App.tick cl t0 s))
  = fst (fst (App.dynamics cl (t0 + App.DT) s)).
Proof.
  unfold App.tick, bind, gets, modify, ret. cbn [fst snd App.sample].
  rewrite plan_free_dynamics. reflexivity.
Qed.

Lemma dynamics_flowOut (cl : App.ReactState) (nextT : Qc) (s : App.Store) :
  flowOut (fst (fst (App.dynamics cl nextT s)))
  = fst (App.getDisturbanceValue nextT (App.activeDemandPattern cl) s).
Proof. reflexivity. Qed.

Lemma dynamics_target (cl : App.ReactState) (nextT : Qc) (s : App.Store) :
  target (fst (fst (App.dynamics cl nextT s)))
  = fst (App.getDisturbanceValue nextT (App.activeSetpointPattern cl)
           (snd (App.getDisturbanceValue nextT (App.activeDemandPattern cl)
                   s))).
Proof. reflexivity. Qed.

Lemma geb_le (x y : Qc) : y <= x -> geb x y = true.
Proof.
  intros H. unfold geb. destruct (x ?= y) eqn:E; try reflexivity.
  apply Qclt_alt in E. exfalso. exact (Qcle_not_lt _ _ H E).
Qed.

Lemma checkPlans_calls (nextT : Qc) (ps : list PlanStep) :
  snd (App.checkPlans nextT ps)
  = flat_map App.executePlan (filter (due nextT) ps).
Proof.
  induction ps as [|q ps IH]; [reflexivity|].
  cbn [App.checkPlans filter]. fold (due nextT q).
  destruct (due nextT q); cbn [snd flat_map]; rewrite IH; reflexivity.
Qed.

Lemma checkPlans_completes (nextT : Qc) (ps : list PlanStep) (p : PlanStep) :
  In p ps -> due nextT p = true ->
  In (set_status completed p) (fst (App.checkPlans nextT ps)).
Proof.
  induction ps as [|q ps IH]; intros Hin Hd; [contradiction|].
  cbn [App.checkPlans]. fold (due nextT q).
  destruct Hin as [->|Hin].
  - rewrite Hd. left. reflexivity.
  - destruct (due nextT q); right; apply IH; assumption.
Qed.

Lemma setter_changesPattern (p : PlanStep) :
  App.changesPattern (setter p) = true.
Proof. unfold setter. destruct (actionType p); reflexivity. Qed.

Lemma setter_in_executePlan (p : PlanStep) : In (setter p) (App.executePlan p).
Proof.
  unfold setter, App.executePlan. destruct (actionType p); left; reflexivity.
Qed.

Lemma last_map_nonempty {A B : Type} (f : A -> B) (l : list A) (x : A)
  (d : B) :
  l <> [] -> last (map f l) d = f (last l x).
Proof.
  induction l as [|a l IH]; [congruence|]. intros _.
  destruct l as [|b l]; [reflexivity|].
  change (last (map f (a :: b :: l)) d) with (last (map f (b :: l)) d).
  change (last (a :: b :: l) x) with (last (b :: l) x).
  apply IH. discriminate.
Qed.

Lemma last_default_cons {A : Type} (a d : A) (l : list A) :
  last (a :: l) d = last l a.
Proof.
  revert a d. induction l as [|b l IH]; intros a d; [reflexivity|].
  change (last (a :: b :: l) d) with (last (b :: l) d).
  rewrite IH. symmetry. apply IH.
Qed.

(** The pattern that a render sees after the setters of the fired plans
    were called in the order of the queue: the payload of the last plan that
    sets it, or the pattern of before when none does. *)
Lemma fired_pattern (p : PlanStep) (ps : list PlanStep) :
  forall r,
    let r' := fold_left App.applyCall (flat_map App.executePlan ps) r in
    match actionType p with
    | CHANGE_DISTURBANCE =>
        App.activeDemandPattern r'
        = last (map payload (filter (sameAction p) ps))
            (App.activeDemandPattern r)
    | CHANGE_SETPOINT =>
        App.activeSetpointPattern r'
        = last (map payload (filter (sameAction p) ps))
            (App.activeSetpointPattern r)
    end.
Proof.
  induction ps as [|a ps IH]; intros r; cbv zeta.
  - destruct (actionType p); reflexivity.
  - cbn [flat_map filter]. rewrite fold_left_app.
    specialize (IH (fold_left App.applyCall (App.executePlan a) r)).
    cbv zeta in IH.
    assert (Ea : fold_left App.applyCall (App.executePlan a) r
                 = App.applyCall r (setter a)).
    { unfold App.executePlan, setter. destruct (actionType a); reflexivity. }
    assert (Es : sameAction p a
                 = match actionType p, actionType a with
                   | CHANGE_DISTURBANCE, CHANGE_DISTURBANCE
                   | CHANGE_SETPOINT, CHANGE_SETPOINT => true
                   | _, _ => false
                   end) by reflexivity.
    rewrite Ea in IH. rewrite Ea, Es. unfold setter in *.
    destruct (actionType p), (actionType a);
      cbn [App.applyCall map] in *; rewrite IH;
      rewrite ?last_default_cons; reflexivity.
Qed.

(** C1 (amended). In the tick in which a pending plan with triggerTime at
    most the new tick time fires, the plan is marked completed and its
    payload is handed to the state setter, but the sample of that tick, and
    in it the demand and the target, is computed from the patterns captured
    by the running closure, whatever the plans are.  The closure installed
    after the tick is the new render, and the next tick is the first to
    evaluate a fired payload: its demand (or its target) is evaluated with
    the payload of the last plan, in the order of the queue, among those
    that fired in this tick and set the same pattern.  That plan is the
    plan itself when it is the only one due. *)
Theorem C1_plan_effect_from_next_tick (w : App.Sim) (p : PlanStep) :
  App.isRunning (App.closure w) = true ->
  In p (App.plans (App.store w)) ->
  status p = pending ->
  triggerTime p <= App.time (App.react w) + App.DT ->
  let cl := App.closure w in
  let nextT := App.time (App.react w) + App.DT in
  let out := fst (App.tick cl (App.time (App.react w)) (App.store w)) in
  let w' := App.interval w in
  In (set_status completed p) (App.plans (App.store w'))
  /\ In (setter p) (App.calls out)
  /\ App.sample out = fst (fst (App.dynamics cl nextT (App.store w)))
  /\ flowOut (App.sample out)
     = fst (App.getDisturbanceValue nextT (App.activeDemandPattern cl)
              (App.store w))
  /\ target (App.sample out)
     = fst (App.getDisturbanceValue nextT (App.activeSetpointPattern cl)
              (snd (App.getDisturbanceValue nextT
                      (App.activeDemandPattern cl) (App.store w))))
  /\ App.closure w' = App.react w'
  /\ (let cl' := App.closure w' in
      let nextT' := App.time (App.react w') + App.DT in
      let out' := fst (App.tick cl' (App.time (App.react w')) (App.store w')) in
      let q := lastFired nextT (App.plans (App.store w)) p in
      match actionType p with
      | CHANGE_DISTURBANCE =>
          App.activeDemandPattern cl' = payload q
          /\ flowOut (App.sample out')
             = fst (App.getDisturbanceValue nextT' (payload q) (App.store w'))
      | CHANGE_SETPOINT =>
          App.activeSetpointPattern cl' = payload q
          /\ target (App.sample out')
             = fst (App.getDisturbanceValue nextT' (payload q)
                      (snd (App.getDisturbanceValue nextT'
                              (App.activeDemandPattern cl') (App.store w'))))
      end)
  /\ (filter (due nextT) (App.plans (App.store w)) = [p]%list ->
      lastFired nextT (App.plans (App.store w)) p = p).
Proof.
  intros Hrun Hin Hst Htrig cl nextT out w'.
  assert (Hdue : due nextT p = true).
  { unfold due, is_pending. rewrite Hst. apply geb_le. exact Htrig. }
  assert (Hcalls : App.calls out
                   = flat_map App.executePlan
                       (filter (due nextT) (App.plans (App.store w)))).
  { subst out. unfold App.tick, bind, gets, modify, ret.
    cbn [fst snd App.calls]. apply checkPlans_calls. }
  assert (Hset : In (setter p) (App.calls out)).
  { rewrite Hcalls. apply in_flat_map. exists p. split.
    - apply filter_In. split; assumption.
    - apply setter_in_executePlan. }
  assert (Hex : existsb App.changesPattern (App.calls out) = true).
  { apply existsb_exists. exists (setter p). split;
      [exact Hset|apply setter_changesPattern]. }
  assert (Hcl : App.closure w' = App.react w').
  { subst w'. unfold App.interval. rewrite Hrun.
    cbn [App.closure App.react]. fold cl. fold out. rewrite Hex. reflexivity. }
  split; [|split; [exact Hset|]].
  { subst w'. unfold App.interval. rewrite Hrun. cbn [App.store].
    unfold App.tick, bind, gets, modify, ret. cbn [fst snd].
    rewrite plan_free_dynamics. cbn [snd App.plans App.set_plans].
    apply checkPlans_completes; assumption. }
  split; [apply tick_sample|].
  split; [subst out; rewrite tick_sample; apply dynamics_flowOut|].
  split; [subst out; rewrite tick_sample; apply dynamics_target|].
  split; [exact Hcl|].
  split.
  2:{ intros Honly. unfold lastFired. rewrite Honly. cbn [filter].
      unfold sameAction. destruct (actionType p); reflexivity. }
  intros cl' nextT' out' q.
  assert (Hfired : In p (filter (sameAction p)
                           (filter (due nextT) (App.plans (App.store w))))).
  { apply filter_In. split; [apply filter_In; split; assumption|].
    unfold sameAction. destruct (actionType p); reflexivity. }
  assert (Hne : filter (sameAction p)
                  (filter (due nextT) (App.plans (App.store w))) <> []).
  { intros E. rewrite E in Hfired. exact Hfired. }
  assert (Hpat : match actionType p with
                 | CHANGE_DISTURBANCE =>
                     App.activeDemandPattern cl' = payload q
                 | CHANGE_SETPOINT =>
                     App.activeSetpointPattern cl' = payload q
                 end).
  { subst cl'. rewrite Hcl. subst w'. unfold App.interval. rewrite Hrun.
    cbn [App.react]. fold cl. fold out. rewrite Hcalls.
    pose proof (fired_pattern p
                  (filter (due nextT) (App.plans (App.store w)))
                  (App.set_history
                     (App.pushHistory (App.sample out)
                        (App.history (App.react w)))
                     (App.set_time (App.nextT out) (App.react w)))) as F.
    cbv zeta in F. subst q. unfold lastFired.
    destruct (actionType p); rewrite F;
      apply last_map_nonempty; exact Hne. }
  subst out'. rewrite tick_sample.
  destruct (actionType p); (split; [exact Hpat|]).
  - rewrite dynamics_flowOut, Hpat. reflexivity.
  - rewrite dynamics_target, Hpat. reflexivity.
Qed.

End Claims.

(** ** Concrete runs *)

Ltac qc_eval := apply Qc_is_canon; vm_compute; reflexivity.
Ltac qc_differ :=
  let E := fresh in intros E; apply (f_equal this) in E; vm_compute in E;
  discriminate E.

(** C1 fails as stated: the tick that fires the plan (the time goes from 0.2
    to 0.3, the plan is due at 0.25) still reports the demand of the old
    pattern, 50, where the payload gives 120; the payload shows in the
    sample of the tick after. *)
Lemma C1_counterexample :
  let w := Example.beforeFiring in
  let out := fst (App.tick (math := rationalMath) (App.closure w)
                    (App.time (App.react w)) (App.store w)) in
  let w' := App.interval (math := rationalMath) w in
  let w'' := App.interval (math := rationalMath) w' in
  App.plans (App.store w) = [Example.plan]%list
  /\ App.nextT out = num 0.3
  /\ map status (App.plans (App.store w')) = [completed]%list
  /\ App.calls out = App.executePlan Example.plan
  /\ flowOut (App.sample out) = num 50
  /\ fst (App.getDisturbanceValue (math := rationalMath) (App.nextT out)
            (payload Example.plan) (App.store w)) = num 120
  /\ flowOut (App.sample out)
     <> fst (App.getDisturbanceValue (math := rationalMath) (App.nextT out)
               (payload Example.plan) (App.store w))
  /\ map flowOut (App.history (App.react w''))
     = [num 50; num 50; num 50; num 120].
Proof.
  cbv zeta. repeat split; try (vm_compute; reflexivity); try qc_eval.
  qc_differ.
Qed.

(** C6 fails as stated: after one tick and the deployment of the MPC
    paradigm the last output is still 50.08 and the Smith model level still
    294.9375, not their initial 0 and 295, and the first MPC output after
    the deployment differs from the one a fresh component gives. *)
Lemma C6_counterexample :
  let cl := App.set_deployedParadigm Example.MODERN_paradigm App.initialReact in
  let used := App.store (App.deployParadigm Example.MODERN_paradigm
                           Example.afterOneTick) in
  let fresh := App.store (App.deployParadigm Example.MODERN_paradigm
                            App.initial) in
  App.lastOut used = num 50.08
  /\ App.lastOut App.initialStore = 0
  /\ App.modelLevel used = num 294.9375
  /\ App.modelLevel App.initialStore = num 295
  /\ fst (App.runControl (math := rationalMath) cl (num 295) (num 295)
            (num 50) used)
     <> fst (App.runControl (math := rationalMath) cl (num 295) (num 295)
               (num 50) fresh).
Proof.
  cbv zeta. repeat split; try reflexivity; try qc_eval.
  qc_differ.
Qed.

(** C7 fails as stated: after a plan was queued and one tick has run under
    PID, the reset leaves the plan in the queue, the integral at 1/500 and
    the last error at 1/50, where the initial values are an empty queue, 0
    and 0. *)
Lemma C7_counterexample :
  let w := App.reset Example.afterPidTick in
  App.plans (App.store w) = [Example.plan]%list
  /\ App.plans App.initialStore = []
  /\ App.integral (App.store w) = num (1 # 500)
  /\ App.integral App.initialStore = 0
  /\ App.lastError (App.store w) = num (1 # 50)
  /\ App.lastError App.initialStore = 0.
Proof.
  cbv zeta. repeat split; try reflexivity; try qc_eval; vm_compute; reflexivity.
Qed.

(** The theorems with hypotheses, at concrete inputs. *)

Lemma C1_witness :
  let w := Example.beforeFiring in
  let w' := App.interval (math := rationalMath) w in
  let v := Sample.twoPlans in
  let v' := App.interval (math := rationalMath) v in
  (In (set_status completed Example.plan) (App.plans (App.store w'))
   /\ App.closure w' = App.react w'
   /\ App.activeDemandPattern (App.closure w') = Example.constant120)
  /\ (In (set_status completed Example.plan) (App.plans (App.store v'))
      /\ App.closure v' = App.react v'
      /\ App.activeDemandPattern (App.closure v') = Sample.constant200).
Proof.
  pose proof
    (C1_plan_effect_from_next_tick (math := rationalMath)
       Example.beforeFiring Example.plan
       ltac:(vm_compute; reflexivity)
       ltac:(vm_compute; left; reflexivity)
       eq_refl
       ltac:(vm_compute; discriminate)) as H.
  pose proof
    (C1_plan_effect_from_next_tick (math := rationalMath)
       Sample.twoPlans Example.plan
       ltac:(vm_compute; reflexivity)
       ltac:(vm_compute; left; reflexivity)
       eq_refl
       ltac:(vm_compute; discriminate)) as G.
  cbv zeta in H, G.
  destruct H as (H1 & _ & _ & _ & _ & H6 & H7 & H8).
  specialize (H8 ltac:(vm_compute; reflexivity)).
  rewrite H8 in H7. cbn [actionType Example.plan] in H7.
  destruct G as (G1 & _ & _ & _ & _ & G6 & G7 & _).
  cbn [actionType Example.plan] in G7.
  assert (E : payload (lastFired (App.time (App.react Sample.twoPlans)
                                  + App.DT)
                         (App.plans (App.store Sample.twoPlans))
                         Example.plan)
              = Sample.constant200) by (vm_compute; reflexivity).
  rewrite E in G7.
  cbv zeta.
  exact (conj (conj H1 (conj H6 (proj1 H7)))
           (conj G1 (conj G6 (proj1 G7)))).
Defined.

Lemma C4_witness :
  exists N, forall n, (N <= n)%nat ->
    App.integral
      (App.repeatControl (math := rationalMath) Example.pidClosure
         (num 305) (num 295) (num 50) n App.initialStore)
    = num 500.
Proof.
  apply (C4_integral_bounded_at_500 (math := rationalMath)
           Example.pidClosure (num 305) (num 295) (num 50) App.initialStore
           eq_refl ltac:(vm_compute; reflexivity)).
Defined.

Lemma C5_witness :
  App.maxFlow Example.pidClosure = num 50
  /\ 0 <= fst (App.runControl (math := rationalMath) Example.pidClosure
                 (num 305) (num 295) (num 50) App.initialStore)
     <= App.maxFlow Example.pidClosure.
Proof.
  pose proof
    (C5_output_clamped (math := rationalMath) Example.pidClosure
       (num 305) (num 295) (num 50) App.initialStore
       (fun _ => ltac:(vm_compute; discriminate))) as H.
  split; [apply Qc_is_canon; vm_compute; reflexivity|apply H].
Defined.

Lemma C6_witness :
  let s' := App.store (App.deployParadigm Example.TRADITIONAL_paradigm
                         Example.afterOneTick) in
  let mpc := App.set_deployedParadigm Example.MODERN_paradigm
               App.initialReact in
  let s2 := App.store (App.deployParadigm Example.MODERN_paradigm
                         Example.afterOneTick) in
  (App.integral s' = 0
   /\ App.lastError s' = 0
   /\ fst (App.runControl (math := rationalMath) Example.pidClosure
             (num 305) (num 295) (num 50) s')
      = fst (App.runControl (math := rationalMath) Example.pidClosure
               (num 305) (num 295) (num 50)
               (App.store (App.deployParadigm Example.TRADITIONAL_paradigm
                             App.initial))))
  /\ (App.integral s2 = 0
      /\ App.lastError s2 = 0
      /\ App.lastOut s2 = App.lastOut (App.store Example.afterOneTick)
      /\ fst (App.runControl (math := rationalMath) mpc
                (num 295) (num 295) (num 50) s2)
         = Math_max 0
             (Math_min (App.maxFlow mpc)
                (App.lastOut (App.store Example.afterOneTick)
                 + (num 295
                    - fst (App.lookahead (math := rationalMath) mpc 50 0
                             (App.pipeBuffer
                                (App.store Example.afterOneTick))
                             0 (num 295) s2))
                   * num 2.0))).
Proof.
  pose proof
    (C6_deploy_resets_integral_and_error (math := rationalMath)
       Example.TRADITIONAL_paradigm Example.afterOneTick App.initial
       Example.pidClosure (num 305) (num 295) (num 50)) as H.
  pose proof
    (C6_deploy_resets_integral_and_error (math := rationalMath)
       Example.MODERN_paradigm Example.afterOneTick App.initial
       (App.set_deployedParadigm Example.MODERN_paradigm App.initialReact)
       (num 295) (num 295) (num 50)) as M.
  cbv zeta in H, M. cbv zeta.
  destruct H as (H1 & H2 & _ & _ & H5).
  destruct M as (M1 & M2 & _ & M4 & M5).
  exact (conj (conj H1 (conj H2 (H5 eq_refl)))
           (conj M1 (conj M2 (conj M4 (M5 eq_refl))))).
Defined.

Lemma C8_witness :
  fst (App.runControl (math := rationalMath)
         (App.set_deployedParadigm Example.TRADITIONAL_paradigm
            App.initialReact)
         (num 305) (num 295) (num 50) Example.pidStore)
  = num 100.
Proof.
  apply (C8_pid_scenario (math := rationalMath)
           (App.set_deployedParadigm Example.TRADITIONAL_paradigm
              App.initialReact)
           (num 305) (num 295) (num 50) Example.pidStore
           eq_refl
           ltac:(apply Qc_is_canon; vm_compute; reflexivity)
           eq_refl
           ltac:(apply Qc_is_canon; vm_compute; reflexivity)
           ltac:(apply Qc_is_canon; vm_compute; reflexivity)
           ltac:(apply Qc_is_canon; vm_compute; reflexivity)).
Defined.

Lemma C10_witness :
  fst (AppCanvas.law AppCanvas.initialReact (num 305 - num 295)
         AppCanvas.initialStore)
  = fst (App.smithLaw App.initialReact (num 305) (num 295) (num 50)
           App.initialStore).
Proof.
  apply (C10_smith_is_proportional App.initialReact (num 305) (num 295)
           (num 50) App.initialStore AppCanvas.initialReact
           AppCanvas.initialStore eq_refl).
Defined.

(** * Further properties *)

(** ** The remainder *)

Lemma Q2Qc_this (q : Q) : (this (Q2Qc q) == q)%Q.
Proof. apply Qred_correct. Qed.

Lemma trunc_floor (x : Qc) : 0 <= x -> trunc x = Qfloor x.
Proof.
  intros H. unfold trunc. destruct x as [[n d] c]. cbn [this Qnum Qden Qfloor].
  unfold Qcle, Qle in H. cbn in H.
  apply Z.quot_div_nonneg; lia.
Qed.

(** For a non-negative dividend and a positive divisor the remainder lies in
    [[0, b)]. *)
Lemma rem_range (a b : Qc) : 0 <= a -> 0 < b -> 0 <= rem a b /\ rem a b < b.
Proof.
  intros Ha Hb.
  assert (Hq : 0 <= a / b).
  { unfold Qcdiv. 
    assert (0 <= / b).
    { unfold Qcle, Qclt in *. cbn [this Qcinv Q2Qc] in *.
      rewrite !Qred_correct. rewrite Qred_correct in Hb.
      apply Qinv_le_0_compat. lra. }
    replace 0 with (0 * / b) by ring.
    apply Qcmult_le_compat_r; assumption. }
  unfold rem. rewrite (trunc_floor _ Hq).
  assert (E : a = b * (a / b)).
  { unfold Qcdiv. field. intros Z. subst b. exact (Qclt_not_eq _ _ Hb eq_refl). }
  set (q := a / b) in *.
  pose proof (Qfloor_le q) as F1.
  pose proof (Qlt_floor q) as F2.
  set (n := Qfloor q) in *.
  assert (G1 : Q2Qc (inject_Z n) <= q).
  { unfold Qcle. rewrite Q2Qc_this. exact F1. }
  assert (G2 : q < Q2Qc (inject_Z n) + 1).
  { unfold Qclt. cbn [this Qcplus Q2Qc]. rewrite !Qred_correct.
    rewrite inject_Z_plus in F2. exact F2. }
  set (m := Q2Qc (inject_Z n)) in *.
  split.
  - rewrite E at 1. replace (b * q - b * m) with ((q - m) * b) by ring.
    assert (L : 0 * b <= (q - m) * b)
      by (apply Qcmult_le_compat_r; [|apply Qclt_le_weak, Hb];
          clear -G1; qc_lra).
    rewrite Qcmult_0_l in L. exact L.
  - rewrite E at 1. replace (b * q - b * m) with ((q - m) * b) by ring.
    assert (L : (q - m) * b < 1 * b)
      by (apply Qcmult_lt_compat_r; [exact Hb|]; clear -G2; qc_lra).
    rewrite Qcmult_1_l in L. exact L.
Qed.

Lemma Qc_pos_neq (b : Qc) : 0 < b -> b <> 0.
Proof. intros H E. subst b. exact (Qclt_not_eq _ _ H eq_refl). Qed.

Lemma Qcinv_pos (b : Qc) : 0 < b -> 0 < / b.
Proof.
  intros Hb. unfold Qclt in *. cbn [this Qcinv Q2Qc] in *.
  rewrite !Qred_correct. rewrite Qred_correct in Hb.
  apply Qinv_lt_0_compat. exact Hb.
Qed.

Lemma div_range (r b : Qc) : 0 <= r -> r < b -> 0 <= r / b /\ r / b < 1.
Proof.
  intros H0 H1.
  assert (Hb : 0 < b) by (eapply Qcle_lt_trans; eassumption).
  pose proof (Qcinv_pos b Hb) as Hi.
  unfold Qcdiv. split.
  - assert (L : 0 * / b <= r * / b)
      by (apply Qcmult_le_compat_r; [exact H0|apply Qclt_le_weak, Hi]).
    rewrite Qcmult_0_l in L. exact L.
  - assert (L : r * / b < b * / b)
      by (apply Qcmult_lt_compat_r; assumption).
    rewrite Qcmult_inv_r in L by (apply Qc_pos_neq, Hb). exact L.
Qed.

(** A non-negative dividend below the divisor is its own remainder. *)
Lemma rem_small (a b : Qc) : 0 <= a -> a < b -> rem a b = a.
Proof.
  intros Ha Hab.
  destruct (div_range a b Ha Hab) as [Q0 Q1].
  unfold rem. rewrite (trunc_floor _ Q0).
  set (q := a / b) in *.
  assert (F : Qfloor (this q) = 0%Z).
  { pose proof (Qfloor_le (this q)) as F1.
    pose proof (Qlt_floor (this q)) as F2.
    unfold Qcle, Qclt in Q0, Q1. cbn [this Q2Qc] in Q0, Q1.
    rewrite Qred_correct in Q0, Q1.
    set (n := Qfloor (this q)) in *.
    assert (H1 : (inject_Z n < inject_Z 1)%Q)
      by (change (inject_Z 1) with 1%Q; lra).
    assert (H2 : (inject_Z 0 < inject_Z (n + 1))%Q)
      by (change (inject_Z 0) with 0%Q; lra).
    rewrite <- Zlt_Qlt in H1, H2. lia. }
  rewrite F. replace (Q2Qc (inject_Z 0)) with 0 by reflexivity. ring.
Qed.

(** ** The waveforms *)

Lemma period_pos (c : DisturbanceConfig) : 0 < period c.
Proof.
  unfold period, Qcdiv. rewrite Qcmult_1_l. apply Qcinv_pos.
  eapply Qclt_le_trans; [|apply Math_max_l]. unfold Qclt. vm_compute. reflexivity.
Qed.

Lemma scaled_range (b a y : Qc) :
  0 <= a -> - (1) <= y -> y <= 1 -> b - a <= b + a * y /\ b + a * y <= b + a.
Proof.
  intros Ha L H.
  unfold Qcle, Qcminus in *. cbn [this Q2Qc Qcplus Qcopp Qcmult] in *.
  rewrite ?Qred_correct in *. split; nra.
Qed.

Lemma abs_range (x : Qc) : - (1) <= x -> x <= 1 -> 0 <= Math_abs x /\ Math_abs x <= 1.
Proof.
  intros L H. unfold Math_abs. destruct (ltb x 0) eqn:E.
  - apply ltb_lt in E. split; qc_lra.
  - apply ltb_ge in E. split; assumption.
Qed.

Section Waveforms.

Context {math : JSMath}.

(** The phase [localT / period] lies in [[0, 1)]. *)
Lemma phase_range (t0 : Qc) (c : DisturbanceConfig) :
  0 <= t0 ->
  0 <= rem t0 (period c) / period c /\ rem t0 (period c) / period c < 1.
Proof.
  intros Ht. destruct (rem_range t0 (period c) Ht (period_pos c)) as [R0 R1].
  apply div_range; assumption.
Qed.

(** X1. In both variants the waveforms made of straight pieces (CONSTANT,
    STEP, RAMP, TRIANGLE, SAWTOOTH and PULSE) stay within the amplitude of
    the base, at any time that is not negative and for any amplitude that
    is not negative. *)
Theorem waveform_range (t0 : Qc) (c : DisturbanceConfig)
  (s : App.Store) (s' : AppCanvas.Store) :
  0 <= t0 -> 0 <= amplitude c -> piecewise (type c) = true ->
  (base c - amplitude c <= fst (App.getDisturbanceValue t0 c s)
   /\ fst (App.getDisturbanceValue t0 c s) <= base c + amplitude c)
  /\ (base c - amplitude c <= fst (AppCanvas.getDisturbanceValue t0 c s')
      /\ fst (AppCanvas.getDisturbanceValue t0 c s') <= base c + amplitude c).
Proof.
  intros Ht Ha Hp.
  destruct (phase_range t0 c Ht) as [P0 P1].
  assert (Hb : base c - amplitude c <= base c /\ base c <= base c + amplitude c)
    by (split; qc_lra).
  assert (Hs : base c - amplitude c <= base c + amplitude c
               /\ base c + amplitude c <= base c + amplitude c)
    by (split; qc_lra).
  unfold App.getDisturbanceValue, AppCanvas.getDisturbanceValue.
  fold (period c). set (x := rem t0 (period c) / period c) in *.
  destruct (type c); try discriminate; unfold ret; cbn [fst].
  - split; exact Hb.
  - split; destruct (ltb _ _); assumption.
  - split; apply scaled_range; try assumption; qc_lra.
  - split; [|exact Hb].
    assert (A : - (1) <= num 2 * x - 1 /\ num 2 * x - 1 <= 1)
      by (split; qc_lra).
    destruct (abs_range _ (proj1 A) (proj2 A)) as [A0 A1].
    apply scaled_range; try assumption; qc_lra.
  - split; [|exact Hb]. apply scaled_range; try assumption; qc_lra.
  - split; destruct (ltb _ _); assumption.
Qed.

End Waveforms.

Section Waveforms2.

Context {math : JSMath}.

Lemma period_floor (c : DisturbanceConfig) :
  frequency c <= num 0.001 -> period c = num 1000.
Proof.
  intros H. unfold period, Math_max.
  replace (ltb (num 0.001) (frequency c)) with false
    by (symmetry; apply ltb_ge; exact H).
  apply Qc_is_canon. vm_compute. reflexivity.
Qed.

(** X3. A frequency of 0.001 Hz or less, zero and negative ones included, is
    taken as 0.001 Hz: the STEP waveform then gives its base during the
    first 500 s and base + amplitude during the next 500 s. *)
Theorem frequency_floored (t0 : Qc) (c : DisturbanceConfig) (s : App.Store) :
  frequency c <= num 0.001 -> type c = STEP -> 0 <= t0 -> t0 < num 1000 ->
  fst (App.getDisturbanceValue t0 c s)
  = if ltb t0 (num 500) then base c else base c + amplitude c.
Proof.
  intros Hf Hty H0 H1. unfold App.getDisturbanceValue. fold (period c).
  rewrite Hty, (period_floor c Hf), (rem_small t0 (num 1000) H0 H1).
  unfold ret. cbn [fst].
  replace (num 1000 / num 2) with (num 500)
    by (apply Qc_is_canon; vm_compute; reflexivity).
  reflexivity.
Qed.

(** Evaluating a waveform changes nothing in the store but the count of
    random draws: one more for NOISE and RANDOM_WALK, none for the others. *)
Lemma getDisturbanceValue_store (t0 : Qc) (c : DisturbanceConfig)
  (s : App.Store) :
  snd (App.getDisturbanceValue t0 c s)
  = App.set_randomCalls (App.randomCalls s + draws (type c)) s.
Proof.
  unfold App.getDisturbanceValue.
  destruct s. destruct (type c); unfold ret, bind, App.random, App.set_randomCalls;
    cbn [fst snd App.randomCalls draws App.pipeBuffer App.tankLevel
         App.modelLevel App.delayedLevel App.integral App.lastError
         App.lastOut App.plans];
    rewrite ?Nat.add_0_r, ?Nat.add_1_r; reflexivity.
Qed.

(** X4. With a draw in [[0, 1)] and a non-negative amplitude the NOISE waveform
    stays within half the amplitude of the base. *)
Theorem noise_range (t0 : Qc) (c : DisturbanceConfig) (s : App.Store) :
  type c = NOISE -> 0 <= amplitude c ->
  0 <= Math_random (App.randomCalls s) ->
  Math_random (App.randomCalls s) < 1 ->
  base c - amplitude c / num 2 <= fst (App.getDisturbanceValue t0 c s)
  /\ fst (App.getDisturbanceValue t0 c s) <= base c + amplitude c / num 2.
Proof.
  intros Hty Ha R0 R1. unfold App.getDisturbanceValue. rewrite Hty.
  unfold bind, ret, App.random. cbn [fst snd].
  set (r := Math_random (App.randomCalls s)) in *.
  replace (amplitude c / num 2) with (amplitude c * num 0.5)
    by (unfold Qcdiv; f_equal; apply Qc_is_canon; vm_compute; reflexivity).
  set (a := amplitude c) in *. set (b := base c).
  unfold Qcle, Qclt, Qcminus, num in *.
  cbn [this Q2Qc Qcplus Qcopp Qcmult] in *.
  rewrite ?Qred_correct in *. split; nra.
Qed.

End Waveforms2.

(** ** The plan queue *)

Lemma geb_true (x y : Qc) : geb x y = true <-> y <= x.
Proof.
  split; [|apply geb_le]. unfold geb. intros H.
  apply Qcnot_lt_le. intros L. rewrite (proj1 (Qclt_alt x y) L) in H.
  discriminate.
Qed.

Lemma due_mono (t1 t2 : Qc) (p : PlanStep) :
  t1 <= t2 -> due t1 p = true -> due t2 p = true.
Proof.
  unfold due. intros Ht H. apply andb_true_iff in H. destruct H as [Hp Hg].
  rewrite Hp. apply geb_true. apply geb_true in Hg.
  eapply Qcle_trans; eassumption.
Qed.

Lemma due_completed (t0 : Qc) (p : PlanStep) :
  due t0 (set_status completed p) = false.
Proof. reflexivity. Qed.

Section Plans.

Context {math : JSMath}.

Lemma checkPlans_map (t0 : Qc) (ps : list PlanStep) :
  fst (App.checkPlans t0 ps)
  = map (fun p => if due t0 p then set_status completed p else p) ps.
Proof.
  induction ps as [|p ps IH]; [reflexivity|].
  cbn [App.checkPlans map]. fold (due t0 p).
  destruct (due t0 p); cbn [fst]; rewrite IH; reflexivity.
Qed.

(** X5. Checking the plans at a time and then at a later time leaves the queue
    that the later check alone leaves, and the second check fires exactly
    the plans that became due in between: a plan fires once. *)
Theorem plans_fire_once (t1 t2 : Qc) (ps : list PlanStep) :
  t1 <= t2 ->
  fst (App.checkPlans t2 (fst (App.checkPlans t1 ps)))
  = fst (App.checkPlans t2 ps)
  /\ snd (App.checkPlans t2 (fst (App.checkPlans t1 ps)))
     = flat_map App.executePlan
         (filter (fun p => due t2 p && negb (due t1 p)) ps)
  /\ App.checkPlans t1 (fst (App.checkPlans t1 ps))
     = (fst (App.checkPlans t1 ps), []).
Proof.
  intros Ht.
  assert (A : forall t1 t2, t1 <= t2 ->
            fst (App.checkPlans t2 (fst (App.checkPlans t1 ps)))
            = fst (App.checkPlans t2 ps)
            /\ snd (App.checkPlans t2 (fst (App.checkPlans t1 ps)))
               = flat_map App.executePlan
                   (filter (fun p => due t2 p && negb (due t1 p)) ps)).
  { clear. intros t1 t2 Ht.
    induction ps as [|p ps [IH1 IH2]]; [split; reflexivity|].
    cbn [App.checkPlans filter]. fold (due t1 p). fold (due t2 p).
    destruct (due t1 p) eqn:D1.
    - rewrite (due_mono t1 t2 p Ht D1). cbn [fst snd App.checkPlans andb negb].
      fold (due t2 (set_status completed p)). rewrite due_completed.
      cbn [fst snd]. rewrite IH1, IH2. split; reflexivity.
    - cbn [fst snd App.checkPlans]. fold (due t2 p).
      destruct (due t2 p); cbn [fst snd andb negb flat_map];
        rewrite IH1, IH2; split; reflexivity. }
  destruct (A t1 t2 Ht) as [A1 A2]. split; [exact A1|]. split; [exact A2|].
  destruct (A t1 t1 (Qcle_refl t1)) as [B1 B2].
  rewrite (surjective_pairing (App.checkPlans t1 (fst (App.checkPlans t1 ps)))).
  rewrite B1, B2. f_equal.
  clear. induction ps as [|p ps IH]; [reflexivity|].
  cbn [filter]. rewrite andb_negb_r. exact IH.
Qed.

(** X6. A check leaves the length of the queue and the identifier, trigger
    time, action and payload of every plan as they were; a plan that is not
    due keeps its status. *)
Theorem checkPlans_keeps (t0 : Qc) (ps : list PlanStep) :
  let ps' := fst (App.checkPlans t0 ps) in
  map id ps' = map id ps
  /\ map triggerTime ps' = map triggerTime ps
  /\ map actionType ps' = map actionType ps
  /\ map payload ps' = map payload ps
  /\ (forall p, In p ps -> due t0 p = false -> In p ps').
Proof.
  cbv zeta. rewrite checkPlans_map. repeat split.
  1-4: rewrite map_map; apply map_ext; intros p; destruct (due t0 p);
    reflexivity.
  intros p Hin Hd. apply in_map_iff. exists p. rewrite Hd. split; auto.
Qed.

End Plans.

Lemma sorted_map_same (f : PlanStep -> PlanStep) (l : list PlanStep) :
  (forall p, triggerTime (f p) = triggerTime p) ->
  sortedPlans l -> sortedPlans (map f l).
Proof.
  intros Hf H. induction H as [|p l Hs IH Hall]; cbn [map]; constructor.
  - exact IH.
  - apply Forall_map. eapply Forall_impl; [|exact Hall].
    intros q Hq. unfold byTrigger in *. rewrite !Hf. exact Hq.
Qed.

Lemma insertPlan_perm (p : PlanStep) (l : list PlanStep) :
  Permutation (App.insertPlan p l) (p :: l).
Proof.
  induction l as [|q l IH]; cbn [App.insertPlan]; [reflexivity|].
  destruct (ltb (triggerTime q) (triggerTime p)); [|reflexivity].
  rewrite IH. apply perm_swap.
Qed.

Lemma insertPlan_sorted (p : PlanStep) (l : list PlanStep) :
  sortedPlans l -> sortedPlans (App.insertPlan p l).
Proof.
  intros H. induction H as [|q l Hs IH Hall]; cbn [App.insertPlan].
  - constructor; constructor.
  - destruct (ltb (triggerTime q) (triggerTime p)) eqn:E.
    + apply ltb_lt in E. constructor; [exact IH|].
      apply (Permutation_Forall (Permutation_sym (insertPlan_perm p l))).
      constructor; [apply Qclt_le_weak, E|exact Hall].
    + apply ltb_ge in E. constructor; [constructor; assumption|].
      constructor; [exact E|].
      eapply Forall_impl; [|exact Hall].
      intros r Hr. unfold byTrigger in *. eapply Qcle_trans; eassumption.
Qed.

Lemma sortPlans_perm (l : list PlanStep) : Permutation (App.sortPlans l) l.
Proof.
  induction l as [|p l IH]; [reflexivity|].
  unfold App.sortPlans in *. cbn [fold_right].
  rewrite insertPlan_perm. constructor. exact IH.
Qed.

Lemma sortPlans_sorted (l : list PlanStep) : sortedPlans (App.sortPlans l).
Proof.
  induction l as [|p l IH]; [constructor|].
  unfold App.sortPlans in *. cbn [fold_right]. apply insertPlan_sorted, IH.
Qed.

(** Into a sorted queue the sort puts the plan added at the end after the
    plans due no later than it and before the plans due later, the others
    keeping their order. *)
Lemma sortPlans_snoc (p : PlanStep) (l : list PlanStep) :
  sortedPlans l ->
  exists l1 l2,
    l = l1 ++ l2
    /\ App.sortPlans (l ++ [p]) = l1 ++ p :: l2
    /\ Forall (fun q => triggerTime q <= triggerTime p) l1
    /\ Forall (fun q => triggerTime p < triggerTime q) l2.
Proof.
  intros H. unfold App.sortPlans. rewrite fold_right_app. cbn [fold_right App.insertPlan].
  induction H as [|x l Hs IH Hall].
  - exists [], []. repeat split; constructor.
  - destruct IH as (l1 & l2 & E & S & F1 & F2). cbn [fold_right]. rewrite S.
    subst l. destruct l1 as [|y l1].
    + cbn [app App.insertPlan] in *.
      destruct (ltb (triggerTime p) (triggerTime x)) eqn:C.
      * apply ltb_lt in C. exists [], (x :: l2). repeat split.
        -- f_equal. destruct l2 as [|z l2]; [reflexivity|].
           cbn [App.insertPlan].
           replace (ltb (triggerTime z) (triggerTime x)) with false;
             [reflexivity|].
           symmetry. apply ltb_ge. inversion Hall; assumption.
        -- constructor.
        -- constructor; assumption.
      * apply ltb_ge in C. exists (x :: nil), l2. repeat split; try assumption.
        constructor; [exact C|constructor].
    + cbn [app App.insertPlan] in *.
      replace (ltb (triggerTime y) (triggerTime x)) with false
        by (symmetry; apply ltb_ge; inversion Hall; assumption).
      exists (x :: y :: l1), l2. repeat split; try assumption.
      constructor; [|exact F1].
      inversion F1; subst. inversion Hall; subst.
      unfold byTrigger in *. eapply Qcle_trans; eassumption.
Qed.

Section Queue.

Context {math : JSMath}.

(** What a tick leaves in the queue. *)
Lemma tick_plans (cl : App.ReactState) (t0 : Qc) (s : App.Store) :
  App.plans (snd (App.tick cl t0 s))
  = fst (App.checkPlans (t0 + App.DT) (App.plans s)).
Proof.
  unfold App.tick, bind, gets, modify, ret. cbn [fst snd].
  rewrite plan_free_dynamics. reflexivity.
Qed.

(** X7. [addPlan] keeps the queued plans in their order and puts the new plan
    after those due no later than it and before those due later. *)
Theorem addPlan_position (now : string) (planDelay : Qc)
  (sc : App.Scope) (draft : DisturbanceConfig) (w : App.Sim) :
  sortedPlans (App.plans (App.store w)) ->
  let p := newPlan now planDelay sc draft w in
  exists l1 l2,
    App.plans (App.store w) = l1 ++ l2
    /\ App.plans (App.store (App.addPlan now planDelay sc draft w))
       = l1 ++ p :: l2
    /\ Forall (fun q => triggerTime q <= triggerTime p) l1
    /\ Forall (fun q => triggerTime p < triggerTime q) l2.
Proof.
  intros H p. exact (sortPlans_snoc p _ H).
Qed.

(** Every event keeps the queue sorted by trigger time and free of the
    status [active]. *)
Lemma step_queue (w : App.Sim) (e : App.Event) :
  sortedPlans (App.plans (App.store w)) ->
  Forall (fun p => status p <> active_) (App.plans (App.store w)) ->
  sortedPlans (App.plans (App.store (App.step w e)))
  /\ Forall (fun p => status p <> active_)
       (App.plans (App.store (App.step w e))).
Proof.
  intros Hs Ha. destruct e; cbn [App.step]; try (split; assumption).
  - unfold App.interval. destruct (App.isRunning (App.closure w));
      [|split; assumption].
    cbn [App.store]. rewrite tick_plans, checkPlans_map. split.
    + apply sorted_map_same; [|exact Hs].
      intros p. destruct (due _ p); reflexivity.
    + apply Forall_map. eapply Forall_impl; [|exact Ha].
      intros p Hp. destruct (due _ p); [discriminate|exact Hp].
  - unfold App.addPlan. cbn [App.store App.plans App.set_plans]. split.
    + apply sortPlans_sorted.
    + apply (Permutation_Forall (Permutation_sym (sortPlans_perm _))).
      apply Forall_app. split; [exact Ha|].
      constructor; [discriminate|constructor].
Qed.

(** X8. From the first render on, whatever the events, the queue is sorted by
    trigger time and no plan ever has the status [active]. *)
Theorem queue_invariant (es : list App.Event) :
  sortedPlans (App.plans (App.store (App.run es App.initial)))
  /\ Forall (fun p => status p = pending \/ status p = completed)
       (App.plans (App.store (App.run es App.initial))).
Proof.
  assert (A : forall es w,
            sortedPlans (App.plans (App.store w)) ->
            Forall (fun p => status p <> active_) (App.plans (App.store w)) ->
            sortedPlans (App.plans (App.store (App.run es w)))
            /\ Forall (fun p => status p <> active_)
                 (App.plans (App.store (App.run es w)))).
  { clear. intros es. induction es as [|e es IH]; intros w Hs Ha.
    - split; assumption.
    - change (App.run (e :: es) w) with (App.run es (App.step w e)).
      destruct (step_queue w e Hs Ha). apply IH; assumption. }
  destruct (A es App.initial) as [S F]; [constructor|constructor|].
  split; [exact S|].
  eapply Forall_impl; [|exact F].
  intros p Hp. cbv beta in Hp.
  destruct (status p);
    [left; reflexivity|exfalso; apply Hp; reflexivity|right; reflexivity].
Qed.

(** X9. Deleting a plan removes every plan with that identifier and nothing
    else, and keeps a sorted queue sorted. *)
Theorem deletePlan_removes (planId : string) (w : App.Sim) :
  let ps := App.plans (App.store w) in
  let ps' := App.plans (App.store (App.deletePlan planId w)) in
  (forall p, In p ps' <-> In p ps /\ id p <> planId)
  /\ (sortedPlans ps -> sortedPlans ps').
Proof.
  cbv zeta. unfold App.deletePlan. cbn [App.store App.plans App.set_plans].
  split.
  - intros p. rewrite filter_In. split; intros [H1 H2]; split; try exact H1.
    + intros E. apply String.eqb_eq in E. rewrite E in H2. discriminate.
    + destruct (String.eqb (id p) planId) eqn:E; [|reflexivity].
      apply String.eqb_eq in E. contradiction.
  - intros H. induction H as [|p l Hs IH Hall]; cbn [filter]; [constructor|].
    destruct (negb _); [|exact IH].
    constructor; [exact IH|].
    apply Forall_forall. intros q Hq. apply filter_In in Hq.
    rewrite Forall_forall in Hall. apply Hall, Hq.
Qed.

End Queue.

(** ** Counting *)

Lemma of_nat_compare (a b : nat) : (of_nat a ?= of_nat b) = (a ?= b)%nat.
Proof.
  unfold of_nat, Qccompare. cbn [this Q2Qc].
  rewrite <- Qred_compare. unfold Qcompare, inject_Z. cbn [Qnum Qden].
  rewrite !Z.mul_1_r. apply Nat2Z.inj_compare.
Qed.

Lemma of_nat_ltb (a b : nat) : ltb (of_nat a) (of_nat b) = (a <? b)%nat.
Proof.
  unfold ltb. rewrite of_nat_compare.
  destruct (a ?= b)%nat eqn:E.
  - apply Nat.compare_eq in E. subst. symmetry. apply Nat.ltb_irrefl.
  - apply Nat.compare_lt_iff in E. symmetry. apply Nat.ltb_lt, E.
  - apply Nat.compare_gt_iff in E. symmetry. apply Nat.ltb_ge. lia.
Qed.

(** ** The history *)

Lemma last_skipn {A : Type} (l : list A) (k : nat) (d : A) :
  (k < List.length l)%nat -> last (skipn k l) d = last l d.
Proof.
  revert k. induction l as [|a l IH]; intros k Hk; [cbn in Hk; lia|].
  destruct k as [|k]; [reflexivity|].
  cbn [skipn]. cbn [List.length] in Hk.
  rewrite IH by lia. destruct l; [cbn in Hk; lia|reflexivity].
Qed.

(** The updater of the history, by cases on the length. *)
Lemma pushHistory_spec (x d : ChartData) (prev : list ChartData) :
  (List.length (App.pushHistory x prev) <= 900)%nat
  /\ last (App.pushHistory x prev) d = x
  /\ ((List.length prev < 900)%nat -> App.pushHistory x prev = prev ++ [x])
  /\ ((900 <= List.length prev)%nat ->
      App.pushHistory x prev = skipn (List.length prev - 599) (prev ++ [x])
      /\ List.length (App.pushHistory x prev) = 600%nat).
Proof.
  unfold App.pushHistory.
  replace (App.MAX_HISTORY * num 1.5) with (of_nat 900)
    by (apply Qc_is_canon; vm_compute; reflexivity).
  replace (to_nat App.MAX_HISTORY) with 600%nat by (vm_compute; reflexivity).
  unfold gtb. rewrite of_nat_ltb, length_app. cbn [List.length].
  destruct (900 <? List.length prev + 1)%nat eqn:E.
  - apply Nat.ltb_lt in E. split; [|split; [|split]].
    + rewrite length_skipn, length_app. cbn [List.length]. lia.
    + rewrite last_skipn by (rewrite length_app; cbn [List.length]; lia).
      apply last_last.
    + intros H. lia.
    + intros H. split; [f_equal; lia|].
      rewrite length_skipn, length_app. cbn [List.length]. lia.
  - apply Nat.ltb_ge in E. split; [|split; [|split]].
    + rewrite length_app. cbn [List.length]. lia.
    + apply last_last.
    + intros H. reflexivity.
    + intros H. lia.
Qed.

(** X10. The history never holds more than 900 samples, its last sample is the
    one just pushed, and nothing is dropped until 900 are held. *)
Theorem pushHistory_bounded (x d : ChartData) (prev : list ChartData) :
  (List.length (App.pushHistory x prev) <= 900)%nat
  /\ last (App.pushHistory x prev) d = x
  /\ ((List.length prev < 900)%nat -> App.pushHistory x prev = prev ++ [x])
  /\ ((900 <= List.length prev)%nat ->
      App.pushHistory x prev = skipn (List.length prev - 599) (prev ++ [x])
      /\ List.length (App.pushHistory x prev) = 600%nat).
Proof. exact (pushHistory_spec x d prev). Qed.

(** X11. The canvas variant keeps at most 600 samples. *)
Theorem canvas_pushHistory_bounded (x d : ChartData) (p : list ChartData) :
  (List.length (AppCanvas.pushHistory x p) <= 600)%nat
  /\ last (AppCanvas.pushHistory x p) d = x
  /\ ((List.length p < 600)%nat -> AppCanvas.pushHistory x p = p ++ [x]).
Proof.
  unfold AppCanvas.pushHistory.
  replace AppCanvas.MAX_HISTORY with (of_nat 600)
    by (apply Qc_is_canon; vm_compute; reflexivity).
  replace (to_nat (of_nat 600)) with 600%nat by (vm_compute; reflexivity).
  unfold gtb. rewrite of_nat_ltb, length_app. cbn [List.length].
  destruct (600 <? List.length p + 1)%nat eqn:E.
  - apply Nat.ltb_lt in E. split; [|split].
    + rewrite length_skipn, length_app. cbn [List.length]. lia.
    + rewrite last_skipn by (rewrite length_app; cbn [List.length]; lia).
      apply last_last.
    + intros H. lia.
  - apply Nat.ltb_ge in E. split; [|split].
    + rewrite length_app. cbn [List.length]. lia.
    + apply last_last.
    + intros H. reflexivity.
Qed.

Section Runs.

Context {math : JSMath}.

Lemma applyCalls_fields (cs : list App.Call) (r : App.ReactState) :
  App.time (fold_left App.applyCall cs r) = App.time r
  /\ App.isRunning (fold_left App.applyCall cs r) = App.isRunning r
  /\ App.history (fold_left App.applyCall cs r) = App.history r.
Proof.
  revert r. induction cs as [|c cs IH]; intros r; [repeat split|].
  cbn [fold_left]. destruct (IH (App.applyCall r c)) as (H1 & H2 & H3).
  rewrite H1, H2, H3. destruct c; repeat split.
Qed.

(** X12. Along every sequence of events from the first render the history holds
    at most 900 samples. *)
Theorem history_bounded (es : list App.Event) :
  (List.length (App.history (App.react (App.run es App.initial))) <= 900)%nat.
Proof.
  assert (A : forall es w,
            (List.length (App.history (App.react w)) <= 900)%nat ->
            (List.length (App.history (App.react (App.run es w))) <= 900)%nat).
  { clear. intros es. induction es as [|e es IH]; intros w H; [exact H|].
    change (App.run (e :: es) w) with (App.run es (App.step w e)).
    apply IH. destruct e; cbn [App.step]; try exact H.
    - unfold App.interval. destruct (App.isRunning (App.closure w)); [|exact H].
      cbn [App.react].
      rewrite (proj2 (proj2 (applyCalls_fields _ _))).
      cbn [App.history App.set_history].
      apply (pushHistory_spec _
               (App.sample (fst (App.tick (App.closure w)
                                     (App.time (App.react w))
                                     (App.store w))))).
    - cbn. lia.
    - destruct disturbanceScope; exact H. }
  apply A. cbn. lia.
Qed.

(** X13. The delay buffer keeps its length along every sequence of events. *)
Theorem buffer_capacity_fixed (es : list App.Event) (w : App.Sim) :
  App.pipeBuffer (App.store w) <> [] ->
  List.length (App.pipeBuffer (App.store (App.run es w)))
  = List.length (App.pipeBuffer (App.store w)).
Proof.
  revert w. induction es as [|e es IH]; intros w H; [reflexivity|].
  change (App.run (e :: es) w) with (App.run es (App.step w e)).
  assert (S : List.length (App.pipeBuffer (App.store (App.step w e)))
              = List.length (App.pipeBuffer (App.store w))).
  { destruct e; cbn [App.step]; try reflexivity.
    - unfold App.interval. destruct (App.isRunning (App.closure w));
        [|reflexivity].
      cbn [App.store].
      destruct (App.pipeBuffer (App.store w)) as [|x b] eqn:B; [congruence|].
      destruct (tick_buffer (App.closure w) (App.time (App.react w))
                  (App.store w) x b B) as [_ T].
      rewrite T, length_app. cbn [List.length]. lia.
    - cbn [App.reset App.store App.pipeBuffer App.set_pipeBuffer].
      apply length_map. }
  rewrite IH; [exact S|].
  intros E. rewrite E in S. cbn in S.
  destruct (App.pipeBuffer (App.store w)); [congruence|discriminate].
Qed.

(** X15. Pausing, letting the timer go by and resuming loses nothing: the state
    and the cells are as they were, and the interval runs in the current
    render. *)
Theorem pause_resume (n : nat) (w : App.Sim) :
  App.isRunning (App.react w) = true ->
  let paused := App.toggleRunning w in
  let w' := App.toggleRunning (App.run (repeat App.Interval n) paused) in
  App.run (repeat App.Interval n) paused = paused
  /\ App.react w' = App.react w
  /\ App.store w' = App.store w
  /\ App.closure w' = App.react w.
Proof.
  intros Hr paused w'.
  assert (P : App.run (repeat App.Interval n) paused = paused).
  { subst paused. induction n as [|n IH]; [reflexivity|].
    cbn [repeat].
    change (App.run (App.Interval :: repeat App.Interval n)
              (App.toggleRunning w))
      with (App.run (repeat App.Interval n)
              (App.interval (App.toggleRunning w))).
    unfold App.interval at 1. cbn [App.toggleRunning App.closure App.isRunning App.set_isRunning].
    rewrite Hr. cbn [negb]. exact IH. }
  split; [exact P|]. subst w'. rewrite P. subst paused.
  unfold App.toggleRunning. cbn [App.react App.store App.closure].
  assert (E : App.set_isRunning
                (negb (App.isRunning
                         (App.set_isRunning (negb (App.isRunning (App.react w)))
                            (App.react w))))
                (App.set_isRunning (negb (App.isRunning (App.react w)))
                   (App.react w))
              = App.react w).
  { destruct (App.react w) as [t0 r h p d sp f]. cbn in Hr |- *. subst r.
    reflexivity. }
  rewrite E. repeat split.
Qed.

Lemma interval_history (w : App.Sim) :
  App.isRunning (App.closure w) = true ->
  App.history (App.react (App.interval w))
  = App.pushHistory
      (App.sample (fst (App.tick (App.closure w) (App.time (App.react w))
                          (App.store w))))
      (App.history (App.react w)).
Proof.
  intros Hc. unfold App.interval. rewrite Hc. cbn [App.react].
  rewrite (proj2 (proj2 (applyCalls_fields _ _))). reflexivity.
Qed.

(** X16. A pattern applied at once is the pattern of the next tick: the sample
    that this tick appends to the history has its demand (or its target)
    evaluated with the draft. *)
Theorem executeImmediate_next_tick (sc : App.Scope) (draft : DisturbanceConfig)
  (w : App.Sim) (d : ChartData) :
  App.isRunning (App.react w) = true ->
  let w' := App.interval (App.executeImmediate sc draft w) in
  let nextT := App.time (App.react w) + App.DT in
  let x := last (App.history (App.react w')) d in
  t x = nextT
  /\ match sc with
     | App.DEMAND =>
         flowOut x = fst (App.getDisturbanceValue nextT draft (App.store w))
     | App.TARGET =>
         target x
         = fst (App.getDisturbanceValue nextT draft
                  (snd (App.getDisturbanceValue nextT
                          (App.activeDemandPattern (App.react w))
                          (App.store w))))
     end.
Proof.
  intros Hr w' nextT x. subst x w'.
  rewrite interval_history
    by (destruct sc; cbn [App.executeImmediate App.closure]; exact Hr).
  rewrite (proj1 (proj2 (pushHistory_spec _ d _))).
  rewrite tick_sample. split; [destruct sc; reflexivity|].
  destruct sc; cbn [App.executeImmediate App.closure App.react App.store];
    [rewrite dynamics_flowOut|rewrite dynamics_target]; reflexivity.
Qed.

End Runs.

(** ** The controller and the tank *)

Section Control.

Context {math : JSMath}.

Lemma lookahead_store (cl : App.ReactState) (steps : nat) :
  forall i buffer output predictedLevel s,
    exists k,
      snd (App.lookahead cl steps i buffer output predictedLevel s)
      = App.set_randomCalls k s.
Proof.
  induction steps as [|steps IH]; intros; cbn [App.lookahead].
  - exists (App.randomCalls s). destruct s. reflexivity.
  - unfold bind. rewrite getDisturbanceValue_store.
    match goal with
    | |- context [App.lookahead cl steps ?i ?b ?o ?l ?s1] =>
        destruct (IH i b o l s1) as [k Hk]; rewrite Hk
    end.
    exists k. reflexivity.
Qed.

(** X17. Whatever the algorithm, [runControl] records the error and its output
    and writes neither the tank level, nor the delay buffer, nor the plans. *)
Theorem runControl_writes (cl : App.ReactState) (target level demand : Qc)
  (s : App.Store) :
  let s' := snd (App.runControl cl target level demand s) in
  App.lastError s' = target - level
  /\ App.lastOut s' = fst (App.runControl cl target level demand s)
  /\ App.tankLevel s' = App.tankLevel s
  /\ App.pipeBuffer s' = App.pipeBuffer s
  /\ App.plans s' = App.plans s
  /\ match algorithm (App.deployedParadigm cl) with
     | PID => App.modelLevel s' = App.modelLevel s
              /\ App.randomCalls s' = App.randomCalls s
     | SMITH => App.integral s' = App.integral s
                /\ App.randomCalls s' = App.randomCalls s
     | MPC => App.integral s' = App.integral s
              /\ App.modelLevel s' = App.modelLevel s
     end.
Proof.
  cbv zeta. unfold App.runControl.
  destruct (algorithm (App.deployedParadigm cl)).
  - app_run.
    destruct (gtb (Math_abs (App.integral s + (target - level) * App.DT))
                (num 500)); repeat split.
  - app_run. repeat split.
  - unfold App.mpcLaw, bind, gets, modify, ret. cbn [fst snd].
    destruct (lookahead_store cl 50 0 (App.pipeBuffer s) 0 level s) as [k Hk].
    rewrite Hk. repeat split.
Qed.

(** X18. Without leakage, with a positive area and a level that is not negative,
    the level does not fall when the inflow reaching the tank covers the
    demand, and does not rise when it does not exceed it. *)
Theorem updatePhysics_balance (cl : App.ReactState) (pumpInflow demand : Qc)
  (s : App.Store) (x : Qc) (b : list Qc) :
  App.pipeBuffer s = x :: b ->
  active (leakage (App.faults cl)) = false ->
  0 < tankArea (App.deployedParadigm cl) ->
  0 <= App.tankLevel s ->
  let h' := App.tankLevel (snd (App.updatePhysics cl pumpInflow demand s)) in
  (demand <= x -> App.tankLevel s <= h')
  /\ (x <= demand -> h' <= App.tankLevel s).
Proof.
  intros B L A H. cbv zeta. app_run. rewrite B, L.
  cbn [hd_error opt_or_else]. rewrite or_else_zero.
  set (h := App.tankLevel s) in *.
  pose proof (Qcinv_pos _ A) as Hi.
  set (ia := / tankArea (App.deployedParadigm cl)) in *.
  unfold Qcdiv. fold ia.
  assert (D : (x - demand) * App.DT * ia = (x - demand) * (App.DT * ia))
    by ring.
  rewrite D.
  assert (G : 0 < App.DT * ia).
  { assert (G' : 0 * ia < App.DT * ia)
      by (apply Qcmult_lt_compat_r; [exact Hi|unfold Qclt; vm_compute; reflexivity]).
    rewrite Qcmult_0_l in G'. exact G'. }
  set (g := App.DT * ia) in *. clearbody g. clear D Hi ia A.
  split; intros C.
  - eapply Qcle_trans; [|apply Math_max_r].
    assert (P : 0 * g <= (x - demand) * g)
      by (apply Qcmult_le_compat_r; [qc_lra|apply Qclt_le_weak, G]).
    rewrite Qcmult_0_l in P. clear -P. generalize dependent ((x - demand) * g).
    intros y P. qc_lra.
  - assert (P : (x - demand) * g <= 0 * g)
      by (apply Qcmult_le_compat_r; [qc_lra|apply Qclt_le_weak, G]).
    rewrite Qcmult_0_l in P.
    unfold Math_max. destruct (ltb 0 (h + (x - demand) * g)); [|exact H].
    clear -P. generalize dependent ((x - demand) * g). intros y P. qc_lra.
Qed.

End Control.

(** ** The prediction of the chart *)

Section Prediction.

Context {math : JSMath}.




End Prediction.

(** ** The canvas variant *)

Section Canvas.

Context {math : JSMath}.

Lemma maxQ_nonneg (cl : AppCanvas.ReactState) :
  0 <= AppCanvas.eff cl ->
  (active (pumpEfficiency (AppCanvas.faults cl)) = true ->
   value (pumpEfficiency (AppCanvas.faults cl)) <= num 100) ->
  0 <= AppCanvas.maxQ cl.
Proof.
  intros He Hv. unfold AppCanvas.maxQ.
  set (e := AppCanvas.eff cl) in *.
  replace (e / num 100) with (e * num (1 # 100))
    by (unfold Qcdiv; f_equal; apply Qc_is_canon; reflexivity).
  destruct (active (pumpEfficiency (AppCanvas.faults cl))).
  - specialize (Hv eq_refl).
    set (v := value (pumpEfficiency (AppCanvas.faults cl))) in *.
    replace (v / num 100) with (v * num (1 # 100))
      by (unfold Qcdiv; f_equal; apply Qc_is_canon; reflexivity).
    unfold Qcle, num, Qcminus in *.
    cbn [this Q2Qc Qcplus Qcopp Qcmult] in *.
    rewrite ?Qred_correct in *. nra.
  - unfold Qcle, num in *. cbn [this Q2Qc Qcmult] in *.
    rewrite ?Qred_correct in *. lra.
Qed.

(** X20. In the canvas variant too the pump output lies in [[0, maxQ]], for a
    pump efficiency that is not negative and a fault value of at most 100,
    and the control stage records it and the error without touching the
    level or the buffer. *)
Theorem canvas_control_clamped (cl : AppCanvas.ReactState) (error : Qc)
  (s : AppCanvas.Store) :
  0 <= AppCanvas.eff cl ->
  (active (pumpEfficiency (AppCanvas.faults cl)) = true ->
   value (pumpEfficiency (AppCanvas.faults cl)) <= num 100) ->
  let out := fst (AppCanvas.control cl error s) in
  let s' := snd (AppCanvas.control cl error s) in
  0 <= out <= AppCanvas.maxQ cl
  /\ AppCanvas.lastOut s' = out
  /\ AppCanvas.lastError s' = error
  /\ AppCanvas.tankLevel s' = AppCanvas.tankLevel s
  /\ AppCanvas.pipeBuffer s' = AppCanvas.pipeBuffer s.
Proof.
  intros He Hv. cbv zeta. split.
  - unfold AppCanvas.control, bind, modify, ret. cbn [fst snd].
    apply clamp_range, maxQ_nonneg; assumption.
  - unfold AppCanvas.control, AppCanvas.law. rewrite isConnected_true.
    destruct (algorithm (AppCanvas.deployedParadigm cl)); canvas_run;
      try (repeat split; fail).
    destruct (gtb (Math_abs (AppCanvas.integral s + error * AppCanvas.DT))
                (num 500)); repeat split.
Qed.

(** X21. Under PID the two variants compute the same output and leave the same
    integral, last error and last output, when the area, the pump limit,
    the integral and the last error they start from are the same. *)
Theorem pid_same_in_both (cl : App.ReactState) (cl' : AppCanvas.ReactState)
  (target level demand : Qc) (s : App.Store) (s' : AppCanvas.Store) :
  algorithm (App.deployedParadigm cl) = PID ->
  algorithm (AppCanvas.deployedParadigm cl') = PID ->
  AppCanvas.nodeArea cl' = tankArea (App.deployedParadigm cl) ->
  AppCanvas.maxQ cl' = App.maxFlow cl ->
  AppCanvas.integral s' = App.integral s ->
  AppCanvas.lastError s' = App.lastError s ->
  let a := App.runControl cl target level demand s in
  let c := AppCanvas.control cl' (target - level) s' in
  fst c = fst a
  /\ AppCanvas.integral (snd c) = App.integral (snd a)
  /\ AppCanvas.lastError (snd c) = App.lastError (snd a)
  /\ AppCanvas.lastOut (snd c) = App.lastOut (snd a).
Proof.
  intros Ha Hc Harea Hmax Hi He. cbv zeta.
  unfold App.runControl, AppCanvas.control, AppCanvas.law.
  rewrite isConnected_true, Ha, Hc. app_run. canvas_run.
  rewrite Hi, Harea, Hmax.
  change AppCanvas.DT with App.DT.
  set (e := target - level) in *.
  assert (K : forall i e0 kp5 kp2 (g : bool),
            (if g then kp5 else kp2) * e + num 0.5 * i
            + num 0.1 * (e - e0) / App.DT + num 50
            = (if g then kp5 else kp2) * e + num 0.5 * i
              + num 0.1 * ((e - e0) / App.DT) + num 50).
  { intros. unfold Qcdiv. ring. }
  destruct (gtb (Math_abs (App.integral s + e * App.DT)) (num 500));
    app_run; canvas_run; rewrite He;
    replace (num 5.0) with (num 5) by (apply Qc_is_canon; reflexivity);
    replace (num 2.0) with (num 2) by (apply Qc_is_canon; reflexivity);
    rewrite K; repeat split.
Qed.

End Canvas.

(** ** Editing the canvas *)

(** X22. Ending a connection adds at most one edge, at the end, from the source
    of the drawn edge to the node; it never adds a loop on one node nor a
    second edge between the same two nodes, and it leaves the nodes alone. *)
Theorem handleEndConnect_simple (now : string) (tempEdge : option string)
  (nodeId : string) (r : AppCanvas.ReactState) :
  let r' := AppCanvas.handleEndConnect now tempEdge nodeId r in
  AppCanvas.nodes r' = AppCanvas.nodes r
  /\ (AppCanvas.edges r' = AppCanvas.edges r
      \/ exists sourceId,
           tempEdge = Some sourceId
           /\ AppCanvas.edges r'
              = AppCanvas.edges r
                ++ [{| AppCanvas.eid := now; AppCanvas.source := sourceId;
                       AppCanvas.etarget := nodeId |}])
  /\ (Forall (fun e => AppCanvas.source e <> AppCanvas.etarget e)
        (AppCanvas.edges r) ->
      Forall (fun e => AppCanvas.source e <> AppCanvas.etarget e)
        (AppCanvas.edges r'))
  /\ (NoDup (map ends (AppCanvas.edges r)) ->
      NoDup (map ends (AppCanvas.edges r'))).
Proof.
  cbv zeta. unfold AppCanvas.handleEndConnect.
  destruct tempEdge as [src|]; [|repeat split; auto].
  destruct (String.eqb src nodeId) eqn:E; cbn [negb]; [repeat split; auto|].
  destruct (find _ (AppCanvas.edges r)) as [e|] eqn:F; [repeat split; auto|].
  cbn [AppCanvas.set_edges AppCanvas.nodes AppCanvas.edges].
  split; [reflexivity|]. split; [right; exists src; split; reflexivity|].
  split.
  - intros H. apply Forall_app. split; [exact H|].
    constructor; [|constructor]. cbn. intros C.
    apply String.eqb_neq in E. contradiction.
  - intros H. rewrite map_app. cbn [map ends AppCanvas.source AppCanvas.etarget].
    apply (Permutation_NoDup (Permutation_cons_append _ _)).
    constructor; [|exact H].
    intros Hin. apply in_map_iff in Hin. destruct Hin as (e & He & Hin).
    pose proof (find_none _ _ F e Hin) as N. cbv beta in N.
    unfold ends in He. injection He as H1 H2.
    rewrite H1, H2, !String.eqb_refl in N. discriminate.
Qed.

(** X23. Deleting a node removes it and every edge that starts or ends at it,
    and nothing else; no edge is left dangling. *)
Theorem deleteNode_no_dangling (nodeId : string) (r : AppCanvas.ReactState) :
  let r' := AppCanvas.deleteNode nodeId r in
  (forall n, In n (AppCanvas.nodes r')
             <-> In n (AppCanvas.nodes r) /\ AppCanvas.nid n <> nodeId)
  /\ (forall e, In e (AppCanvas.edges r')
                <-> In e (AppCanvas.edges r)
                    /\ AppCanvas.source e <> nodeId
                    /\ AppCanvas.etarget e <> nodeId)
  /\ (noDangling r -> noDangling r').
Proof.
  cbv zeta.
  assert (N : forall n, In n (AppCanvas.nodes (AppCanvas.deleteNode nodeId r))
                 <-> In n (AppCanvas.nodes r) /\ AppCanvas.nid n <> nodeId).
  { intros n. cbn [AppCanvas.deleteNode AppCanvas.nodes]. rewrite filter_In.
    rewrite negb_true_iff, String.eqb_neq. reflexivity. }
  assert (E : forall e, In e (AppCanvas.edges (AppCanvas.deleteNode nodeId r))
                 <-> In e (AppCanvas.edges r)
                     /\ AppCanvas.source e <> nodeId
                     /\ AppCanvas.etarget e <> nodeId).
  { intros e. cbn [AppCanvas.deleteNode AppCanvas.edges]. rewrite filter_In.
    rewrite andb_true_iff, !negb_true_iff, !String.eqb_neq. reflexivity. }
  split; [exact N|]. split; [exact E|].
  unfold noDangling. rewrite !Forall_forall. intros H e He.
  apply E in He. destruct He as (He & Hs & Ht).
  destruct (H e He) as [I1 I2].
  apply in_map_iff in I1. destruct I1 as (n1 & E1 & I1).
  apply in_map_iff in I2. destruct I2 as (n2 & E2 & I2).
  split; apply in_map_iff.
  - exists n1. split; [exact E1|]. apply N. split; [exact I1|].
    rewrite E1. exact Hs.
  - exists n2. split; [exact E2|]. apply N. split; [exact I2|].
    rewrite E2. exact Ht.
Qed.


(** ** The trend chart *)

Import App.TrendChart.

Lemma chart_y (chartH0 top maxv c : Qc) :
  0 <= chartH0 -> 0 < maxv -> 0 <= c -> c <= maxv ->
  top <= top + chartH0 - c / maxv * chartH0
  /\ top + chartH0 - c / maxv * chartH0 <= top + chartH0.
Proof.
  intros Hh Hm H0 H1.
  assert (R : 0 <= c / maxv /\ c / maxv <= 1).
  { pose proof (Qcinv_pos _ Hm) as Hi. unfold Qcdiv. split.
    - assert (L : 0 * / maxv <= c * / maxv)
        by (apply Qcmult_le_compat_r; [exact H0|apply Qclt_le_weak, Hi]).
      rewrite Qcmult_0_l in L. exact L.
    - assert (L : c * / maxv <= maxv * / maxv)
        by (apply Qcmult_le_compat_r; [exact H1|apply Qclt_le_weak, Hi]).
      rewrite Qcmult_inv_r in L by (apply Qc_pos_neq, Hm). exact L. }
  destruct R as [R0 R1]. set (q := c / maxv) in *.
  unfold Qcle, Qcminus in *. cbn [this Q2Qc Qcplus Qcopp Qcmult] in *.
  rewrite ?Qred_correct in *. split; nra.
Qed.

(** X25. Whatever the value, its point is drawn inside the plotting area of a
    chart that has a height; the line of the current time stands at three
    quarters of the width, and the window of 45 s spans the whole width. *)
Theorem chart_coordinates (dimensions : Dimensions) (lastPoint : ChartData)
  (val : Qc) :
  0 <= chartH dimensions ->
  (mTop <= getYFlow dimensions val
   /\ getYFlow dimensions val <= mTop + chartH dimensions)
  /\ (mTop <= getYLevel dimensions val
      /\ getYLevel dimensions val <= mTop + chartH dimensions)
  /\ xNow dimensions lastPoint = mLeft + num 0.75 * chartW dimensions
  /\ getX dimensions lastPoint (tStart lastPoint) = mLeft
  /\ getX dimensions lastPoint (tEnd lastPoint)
     = mLeft + chartW dimensions.
Proof.
  intros Hh.
  assert (F : 0 <= num 250) by (unfold Qcle; vm_compute; discriminate).
  assert (L : 0 <= num 350) by (unfold Qcle; vm_compute; discriminate).
  split; [|split].
  - unfold getYFlow, FLOW_MAX.
    destruct (clamp_range (num 250) val F) as [C0 C1].
    apply chart_y; try assumption. unfold Qclt. vm_compute. reflexivity.
  - unfold getYLevel, LEVEL_MAX.
    destruct (clamp_range (num 350) val L) as [C0 C1].
    apply chart_y; try assumption. unfold Qclt. vm_compute. reflexivity.
  - assert (W : tEnd lastPoint - tStart lastPoint = num 45)
      by (unfold tStart, VIEW_WINDOW_S; ring).
    assert (N : currentTime lastPoint - tStart lastPoint = num 33.75).
    { unfold tStart, tEnd, VIEW_WINDOW_S, FUTURE_RATIO.
      set (c := currentTime lastPoint). apply Qc_is_canon.
      unfold Qcminus, num. cbn [this Q2Qc Qcplus Qcopp Qcmult].
      rewrite ?Qred_correct. ring. }
    unfold xNow, getX. rewrite W, N.
    replace (tStart lastPoint - tStart lastPoint) with 0 by ring.
    replace (num 33.75 / num 45) with (num 0.75)
      by (apply Qc_is_canon; vm_compute; reflexivity).
    replace (0 / num 45) with 0 by (apply Qc_is_canon; vm_compute; reflexivity).
    replace (num 45 / num 45) with 1
      by (apply Qc_is_canon; vm_compute; reflexivity).
    repeat split; ring.
Qed.

(** ** The random draws of a tick *)

Section Draws.

Context {math : JSMath}.

Lemma getDisturbanceValue_draws (t0 : Qc) (c : DisturbanceConfig)
  (s : App.Store) :
  App.randomCalls (snd (App.getDisturbanceValue t0 c s))
  = (App.randomCalls s + draws (type c))%nat.
Proof. rewrite getDisturbanceValue_store. reflexivity. Qed.

Lemma lookahead_draws (cl : App.ReactState) (steps : nat) :
  forall i buffer output predictedLevel s,
    App.randomCalls
      (snd (App.lookahead cl steps i buffer output predictedLevel s))
    = (App.randomCalls s
       + steps * draws (type (App.activeDemandPattern cl)))%nat.
Proof.
  induction steps as [|steps IH]; intros; cbn [App.lookahead].
  - unfold ret. cbn [snd]. lia.
  - unfold bind. rewrite IH, getDisturbanceValue_draws. lia.
Qed.

Lemma runControl_draws (cl : App.ReactState) (target level demand : Qc)
  (s : App.Store) :
  App.randomCalls (snd (App.runControl cl target level demand s))
  = (App.randomCalls s
     + match algorithm (App.deployedParadigm cl) with
       | MPC => 50 * draws (type (App.activeDemandPattern cl))
       | _ => 0
       end)%nat.
Proof.
  unfold App.runControl. destruct (algorithm (App.deployedParadigm cl)).
  - app_run.
    destruct (gtb (Math_abs (App.integral s + (target - level) * App.DT))
                (num 500)); cbn; lia.
  - app_run. lia.
  - unfold App.mpcLaw, bind, gets, modify, ret.
    cbn [fst snd App.randomCalls App.set_lastOut App.set_lastError].
    rewrite lookahead_draws. reflexivity.
Qed.

Lemma updatePhysics_draws (cl : App.ReactState) (p dm : Qc) (s : App.Store) :
  App.randomCalls (snd (App.updatePhysics cl p dm s)) = App.randomCalls s.
Proof. app_run. reflexivity. Qed.

(** X26. A tick draws one random number for the sensor noise, one for each of
    the demand and the target that is a NOISE or RANDOM_WALK waveform, and
    under MPC fifty more when the demand is one: the other waveforms and
    algorithms draw none. *)
Theorem tick_draws (cl : App.ReactState) (t0 : Qc) (s : App.Store) :
  App.randomCalls (snd (App.tick cl t0 s))
  = (App.randomCalls s
     + draws (type (App.activeDemandPattern cl))
     + draws (type (App.activeSetpointPattern cl))
     + 1
     + match algorithm (App.deployedParadigm cl) with
       | MPC => 50 * draws (type (App.activeDemandPattern cl))
       | _ => 0
       end)%nat.
Proof.
  unfold App.tick, App.dynamics, bind, gets, modify, ret. cbn [fst snd].
  rewrite updatePhysics_draws, runControl_draws.
  unfold App.random. cbn [snd App.randomCalls App.set_randomCalls].
  rewrite !getDisturbanceValue_draws.
  cbn [App.randomCalls App.set_plans]. lia.
Qed.

End Draws.

(** ** The delay in ticks, and dropped nodes *)

Section Delays.

Context {math : JSMath}.

(** X27. In [App.tsx] the buffer is a pure delay of [BUFFER_SIZE] = 50 ticks:
    whatever the closures, the times and the stores, the inflow returned by
    call [n + 50] of [updatePhysics] is the pump inflow given to call [n],
    and the inflow reaching the tank at tick [n + 50] is the pump output of
    tick [n]. *)
Theorem pure_delay_of_50_ticks (calls : list (App.ReactState * Qc * Qc))
  (steps : list (App.ReactState * Qc)) (s : App.Store) (n : nat) :
  List.length (App.pipeBuffer s) = 50%nat ->
  ((n + 50 < List.length calls)%nat ->
   nth_error (fst (App.feed calls s)) (n + 50)
   = nth_error (pumpInflows calls) n)
  /\ ((n + 50 < List.length steps)%nat ->
      nth_error (map snd (App.ticks steps s)) (n + 50)
      = nth_error (map fst (App.ticks steps s)) n).
Proof.
  intros HL. rewrite <- BUFFER_SIZE_50 in *. split; intros Hn.
  - apply feed_delay; assumption.
  - apply ticks_delay; assumption.
Qed.

(** X28. In the canvas variant, with a buffer of 500 values and a delay of [idx]
    samples, 1 <= idx <= 500, the inflow read at call [n + idx - 1] of the
    buffer stage is the output pushed at call [n]: the delay is one tick
    short of [idx]. *)
Theorem canvas_delay_one_short (cl : AppCanvas.ReactState) (outs : list Qc)
  (s : AppCanvas.Store) (n : nat) :
  let idx := Qfloor (AppCanvas.nodeDelay cl / AppCanvas.DT) in
  (1 <= idx <= 500)%Z ->
  List.length (AppCanvas.pipeBuffer s) = 500%nat ->
  (n + (Z.to_nat idx - 1) < List.length outs)%nat ->
  nth_error (fst (AppCanvas.pushAll cl outs s)) (n + (Z.to_nat idx - 1))
  = Some (nth_error outs n).
Proof.
  intros idx Hi HL Hn. exact (canvas_delay cl Hi outs s n HL Hn).
Qed.

Lemma find_app_some {A : Type} (f : A -> bool) (l l' : list A) (a : A) :
  find f l = Some a -> find f (l ++ l') = Some a.
Proof.
  induction l as [|x l IH]; cbn [find app]; [discriminate|].
  destruct (f x); [trivial|exact IH].
Qed.

(** X29. The simulation reads the first reservoir, pipe and pump of the canvas:
    once the canvas has one of each, dropping further nodes changes neither
    the area, nor the delay, nor the efficiency it simulates, and leaves
    the edges as they are. *)
Theorem handleDrop_keeps_parameters (now : string)
  (ty : AppCanvas.NodeType) (r : AppCanvas.ReactState) :
  AppCanvas.reservoir r <> None ->
  AppCanvas.pipe r <> None ->
  AppCanvas.pump r <> None ->
  let r' := AppCanvas.handleDrop now ty r in
  AppCanvas.nodeArea r' = AppCanvas.nodeArea r
  /\ AppCanvas.nodeDelay r' = AppCanvas.nodeDelay r
  /\ AppCanvas.eff r' = AppCanvas.eff r
  /\ AppCanvas.edges r' = AppCanvas.edges r
  /\ (noDangling r -> noDangling r').
Proof.
  intros Hr Hp Hu r'.
  assert (F : forall ty', AppCanvas.findNode r ty' <> None ->
                          AppCanvas.findNode r' ty' = AppCanvas.findNode r ty').
  { intros ty' H. unfold AppCanvas.findNode in *.
    destruct (find _ (AppCanvas.nodes r)) as [n|] eqn:E; [|congruence].
    subst r'. cbn [AppCanvas.handleDrop AppCanvas.nodes].
    apply find_app_some, E. }
  unfold AppCanvas.nodeArea, AppCanvas.nodeDelay, AppCanvas.eff,
    AppCanvas.reservoir, AppCanvas.pipe, AppCanvas.pump in *.
  rewrite (F _ Hr), (F _ Hp), (F _ Hu).
  repeat split.
  unfold noDangling. subst r'.
  cbn [AppCanvas.handleDrop AppCanvas.nodes AppCanvas.edges].
  intros H. eapply Forall_impl; [|exact H].
  intros e [H1 H2]. rewrite map_app. split; apply in_or_app; left; assumption.
Qed.

End Delays.


(** ** The sliders of the canvas *)

Section Sliders.

Context {math : JSMath}.

Lemma find_map_same {A : Type} (f : A -> bool) (g : A -> A) (l : list A) :
  (forall x, f (g x) = f x) ->
  find f (map g l) = option_map g (find f l).
Proof.
  intros H. induction l as [|x l IH]; cbn [find map option_map]; [reflexivity|].
  rewrite H. destruct (f x); [reflexivity|exact IH].
Qed.

Lemma findNode_setData (nodeId : string)
  (f : AppCanvas.NodeData -> AppCanvas.NodeData) (r : AppCanvas.ReactState)
  (ty : AppCanvas.NodeType) (n : AppCanvas.CanvasNode) :
  AppCanvas.findNode r ty = Some n ->
  AppCanvas.nid n = nodeId ->
  AppCanvas.findNode (AppCanvas.setData nodeId f r) ty
  = Some {| AppCanvas.nid := AppCanvas.nid n;
            AppCanvas.ntype := AppCanvas.ntype n;
            AppCanvas.data := f (AppCanvas.data n) |}.
Proof.
  intros H Hn. unfold AppCanvas.findNode in *.
  cbn [AppCanvas.setData AppCanvas.nodes].
  rewrite find_map_same.
  - rewrite H. cbn [option_map]. rewrite Hn, String.eqb_refl. reflexivity.
  - intros x. destruct (String.eqb (AppCanvas.nid x) nodeId); reflexivity.
Qed.

Lemma or_else_nonzero (x d : Qc) : x <> 0 -> or_else x d = x.
Proof.
  intros H. unfold or_else, eqb.
  destruct (x ?= 0) eqn:B; try reflexivity.
  apply Qceq_alt in B. contradiction.
Qed.

Lemma delay_samples (v : Qc) :
  1 <= v -> v <= num 20 ->
  (10 <= Qfloor (v / AppCanvas.DT) <= 200)%Z.
Proof.
  intros H1 H2.
  assert (E : (this v / this AppCanvas.DT == this (v * num 10)%Qc)%Q).
  { unfold Qcmult. rewrite Q2Qc_this. unfold Qdiv.
    apply Qmult_comp; [reflexivity|]. vm_compute. reflexivity. }
  rewrite (Qfloor_comp _ _ E).
  assert (L : num 10 <= v * num 10).
  { replace (num 10) with (1 * num 10) at 1 by ring.
    apply Qcmult_le_compat_r; [exact H1|]. unfold Qcle. vm_compute.
    discriminate. }
  assert (U : v * num 10 <= num 200).
  { replace (num 200) with (num 20 * num 10)
      by (apply Qc_is_canon; vm_compute; reflexivity).
    apply Qcmult_le_compat_r; [exact H2|]. unfold Qcle. vm_compute.
    discriminate. }
  split.
  - change 10%Z with (Qfloor (this (num 10))). apply Qfloor_resp_le. exact L.
  - change 200%Z with (Qfloor (this (num 200))). apply Qfloor_resp_le. exact U.
Qed.

(** X30. The sliders of the property panel write the value of the selected node,
    and the simulation reads it when that node is the first of its type.
    Every delay the slider can give, from 1 s to 20 s, is a look-back of 10
    to 200 samples, inside the buffer of 500, so that the tick produces a
    value; every area from 10 to 300 is the area simulated.  The efficiency
    slider starts at 0, and an efficiency of 0 is read as 100. *)
Theorem sliders_set_parameters (r : AppCanvas.ReactState)
  (n : AppCanvas.CanvasNode) (v : Qc) :
  (AppCanvas.pipe r = Some n -> 1 <= v -> v <= num 20 ->
   let r' := AppCanvas.setDelay (AppCanvas.nid n) v r in
   AppCanvas.nodeDelay r' = v
   /\ (10 <= Qfloor (AppCanvas.nodeDelay r' / AppCanvas.DT) <= 200)%Z
   /\ forall t0 s, List.length (AppCanvas.pipeBuffer s) = 500%nat ->
                   AppCanvas.tick r' t0 s <> None)
  /\ (AppCanvas.reservoir r = Some n -> num 10 <= v -> v <= num 300 ->
      AppCanvas.nodeArea (AppCanvas.setArea (AppCanvas.nid n) v r) = v)
  /\ (AppCanvas.pump r = Some n -> 0 <= v -> v <= num 100 ->
      AppCanvas.eff (AppCanvas.setEfficiency (AppCanvas.nid n) v r)
      = if eqb v 0 then num 100 else v).
Proof.
  split; [|split].
  - intros Hp H1 H2 r'.
    assert (D : AppCanvas.nodeDelay r' = v).
    { unfold AppCanvas.nodeDelay, AppCanvas.prop, AppCanvas.pipe in *.
      subst r'. unfold AppCanvas.setDelay.
      rewrite (findNode_setData _ _ _ _ _ Hp eq_refl).
      cbn [AppCanvas.data AppCanvas.delay opt_or_else].
      apply or_else_nonzero. intros E. subst v. revert H1.
      unfold Qcle. vm_compute. intros H. apply H. reflexivity. }
    split; [exact D|]. rewrite D.
    pose proof (delay_samples v H1 H2) as R. split; [exact R|].
    intros t0 s HL.
    assert (R' : (1 <= Qfloor (AppCanvas.nodeDelay r' / AppCanvas.DT)
                  <= 500)%Z) by (rewrite D; lia).
    destruct (canvas_tick_total r' R' t0 s HL) as (out & s' & E & _).
    rewrite E. discriminate.
  - intros Hp H1 H2.
    unfold AppCanvas.nodeArea, AppCanvas.prop, AppCanvas.reservoir in *.
    unfold AppCanvas.setArea.
    rewrite (findNode_setData _ _ _ _ _ Hp eq_refl).
    cbn [AppCanvas.data AppCanvas.area opt_or_else].
    apply or_else_nonzero. intros E. subst v. revert H1.
    unfold Qcle. vm_compute. intros H. apply H. reflexivity.
  - intros Hp H1 H2.
    unfold AppCanvas.eff, AppCanvas.prop, AppCanvas.pump in *.
    unfold AppCanvas.setEfficiency.
    rewrite (findNode_setData _ _ _ _ _ Hp eq_refl).
    cbn [AppCanvas.data AppCanvas.efficiency opt_or_else].
    reflexivity.
Qed.

End Sliders.

(** ** The further properties on concrete inputs *)

Ltac qc_le := unfold Qcle; vm_compute; discriminate.
Ltac qc_lt := unfold Qclt; vm_compute; reflexivity.

Lemma waveform_range_witness :
  base (STEP_50_100 true) - amplitude (STEP_50_100 true)
  <= fst (App.getDisturbanceValue (math := rationalMath) (num 3)
            (STEP_50_100 true) App.initialStore).
Proof.
  exact (proj1 (proj1 (waveform_range (math := rationalMath) (num 3)
                         (STEP_50_100 true) App.initialStore
                         AppCanvas.initialStore
                         ltac:(qc_le) ltac:(qc_le) eq_refl))).
Defined.

Lemma frequency_floored_witness :
  fst (App.getDisturbanceValue (math := rationalMath) (num 700)
         Sample.slowStep App.initialStore)
  = if ltb (num 700) (num 500) then base Sample.slowStep
    else base Sample.slowStep + amplitude Sample.slowStep.
Proof.
  exact (frequency_floored (math := rationalMath) (num 700) Sample.slowStep
           App.initialStore ltac:(qc_le) eq_refl ltac:(qc_le) ltac:(qc_lt)).
Defined.

Lemma noise_range_witness :
  base Sample.noise - amplitude Sample.noise / num 2
  <= fst (App.getDisturbanceValue (math := rationalMath) (num 3) Sample.noise
            App.initialStore)
  /\ fst (App.getDisturbanceValue (math := rationalMath) (num 3) Sample.noise
            App.initialStore)
     <= base Sample.noise + amplitude Sample.noise / num 2.
Proof.
  exact (noise_range (math := rationalMath) (num 3) Sample.noise
           App.initialStore eq_refl ltac:(qc_le) ltac:(qc_le) ltac:(qc_lt)).
Defined.

Lemma plans_fire_once_witness :
  App.checkPlans (num 0.3)
    (fst (App.checkPlans (num 0.3) (Example.plan :: nil)))
  = (fst (App.checkPlans (num 0.3) (Example.plan :: nil)), nil).
Proof.
  exact (proj2 (proj2 (plans_fire_once (num 0.3) (num 0.4)
                         (Example.plan :: nil) ltac:(qc_le)))).
Defined.

Lemma addPlan_position_witness :
  exists l1 l2,
    App.plans (App.store App.initial) = l1 ++ l2
    /\ App.plans (App.store (App.addPlan "1" (num 0.25) App.DEMAND
                               Example.constant120 App.initial))
       = l1 ++ newPlan "1" (num 0.25) App.DEMAND Example.constant120
                 App.initial :: l2
    /\ Forall (fun q => triggerTime q
                        <= triggerTime (newPlan "1" (num 0.25) App.DEMAND
                                          Example.constant120 App.initial)) l1
    /\ Forall (fun q => triggerTime (newPlan "1" (num 0.25) App.DEMAND
                                       Example.constant120 App.initial)
                        < triggerTime q) l2.
Proof.
  exact (addPlan_position "1" (num 0.25) App.DEMAND Example.constant120
           App.initial (SSorted_nil byTrigger)).
Defined.

Lemma buffer_capacity_fixed_witness :
  List.length
    (App.pipeBuffer
       (App.store (App.run (math := rationalMath)
                     (App.Interval :: App.Reset :: App.Interval :: nil)
                     App.initial)))
  = List.length (App.pipeBuffer (App.store App.initial)).
Proof.
  exact (buffer_capacity_fixed (math := rationalMath)
           (App.Interval :: App.Reset :: App.Interval :: nil) App.initial
           ltac:(vm_compute; discriminate)).
Defined.

Lemma pause_resume_witness :
  App.store
    (App.toggleRunning
       (App.run (math := rationalMath) (repeat App.Interval 5)
          (App.toggleRunning App.initial)))
  = App.store App.initial.
Proof.
  exact (proj1 (proj2 (proj2 (pause_resume (math := rationalMath) 5
                                App.initial eq_refl)))).
Defined.

Lemma executeImmediate_next_tick_witness :
  flowOut
    (last (App.history
             (App.react
                (App.interval (math := rationalMath)
                   (App.executeImmediate App.DEMAND Example.constant120
                      App.initial))))
       {| t := 0; level := 0; target := 0; flowIn := 0; flowOut := 0 |})
  = fst (App.getDisturbanceValue (math := rationalMath)
           (App.time (App.react App.initial) + App.DT) Example.constant120
           (App.store App.initial)).
Proof.
  exact (proj2 (executeImmediate_next_tick (math := rationalMath) App.DEMAND
                  Example.constant120 App.initial
                  {| t := 0; level := 0; target := 0; flowIn := 0;
                     flowOut := 0 |} eq_refl)).
Defined.

Lemma updatePhysics_balance_witness :
  App.tankLevel
    (snd (App.updatePhysics (math := rationalMath) App.initialReact (num 60)
            (num 50) App.initialStore))
  <= App.tankLevel App.initialStore.
Proof.
  exact (proj2 (updatePhysics_balance (math := rationalMath) App.initialReact
                  (num 60) (num 50) App.initialStore 0 (repeat 0 49)
                  ltac:(vm_compute; reflexivity) eq_refl ltac:(qc_lt)
                  ltac:(qc_le))
           ltac:(qc_le)).
Defined.


Lemma canvas_control_clamped_witness :
  0 <= fst (AppCanvas.control AppCanvas.initialReact (num 10)
              AppCanvas.initialStore)
  <= AppCanvas.maxQ AppCanvas.initialReact.
Proof.
  exact (proj1 (canvas_control_clamped AppCanvas.initialReact (num 10)
                  AppCanvas.initialStore ltac:(qc_le)
                  (fun H => ltac:(discriminate H)))).
Defined.

Lemma pid_same_in_both_witness :
  fst (AppCanvas.control Sample.traditionalCanvas (num 305 - num 295)
         AppCanvas.initialStore)
  = fst (App.runControl (math := rationalMath) Sample.traditional (num 305)
           (num 295) (num 50) App.initialStore).
Proof.
  exact (proj1 (pid_same_in_both (math := rationalMath) Sample.traditional
                  Sample.traditionalCanvas (num 305) (num 295) (num 50)
                  App.initialStore AppCanvas.initialStore
                  eq_refl eq_refl
                  ltac:(apply Qc_is_canon; vm_compute; reflexivity)
                  ltac:(apply Qc_is_canon; vm_compute; reflexivity)
                  eq_refl eq_refl)).
Defined.

Lemma chart_coordinates_witness :
  App.TrendChart.mTop <= App.TrendChart.getYFlow Sample.chart (num 300)
  /\ App.TrendChart.getYFlow Sample.chart (num 300)
     <= App.TrendChart.mTop + App.TrendChart.chartH Sample.chart.
Proof.
  exact (proj1 (chart_coordinates Sample.chart
                  {| t := 0; level := 0; target := 0; flowIn := 0;
                     flowOut := 0 |} (num 300) ltac:(qc_le))).
Defined.

Lemma pure_delay_of_50_ticks_witness :
  nth_error (map snd (App.ticks (math := rationalMath) Sample.steps51
                        App.initialStore)) (0 + 50)
  = nth_error (map fst (App.ticks (math := rationalMath) Sample.steps51
                          App.initialStore)) 0.
Proof.
  exact (proj2 (pure_delay_of_50_ticks (math := rationalMath) nil
                  Sample.steps51 App.initialStore 0
                  ltac:(vm_compute; reflexivity))
           ltac:(vm_compute; lia)).
Defined.

Lemma canvas_delay_one_short_witness :
  nth_error (fst (AppCanvas.pushAll AppCanvas.initialReact impulse
                    AppCanvas.initialStore))
    (0 + (Z.to_nat (Qfloor (AppCanvas.nodeDelay AppCanvas.initialReact
                            / AppCanvas.DT)) - 1))
  = Some (nth_error impulse 0).
Proof.
  exact (canvas_delay_one_short AppCanvas.initialReact impulse
           AppCanvas.initialStore 0
           ltac:(vm_compute; split; discriminate)
           ltac:(vm_compute; reflexivity)
           ltac:(vm_compute; lia)).
Defined.

Lemma handleDrop_keeps_parameters_witness :
  AppCanvas.nodeArea
    (AppCanvas.handleDrop "n9" AppCanvas.RESERVOIR AppCanvas.initialReact)
  = AppCanvas.nodeArea AppCanvas.initialReact.
Proof.
  exact (proj1 (handleDrop_keeps_parameters "n9" AppCanvas.RESERVOIR
                  AppCanvas.initialReact
                  ltac:(discriminate) ltac:(discriminate)
                  ltac:(discriminate))).
Defined.
Lemma sliders_set_parameters_witness :
  AppCanvas.eff (AppCanvas.setEfficiency "n2" 0 AppCanvas.initialReact)
  = num 100.
Proof.
  exact (proj2 (proj2 (sliders_set_parameters (math := rationalMath)
                         AppCanvas.initialReact
                         {| AppCanvas.nid := "n2";
                            AppCanvas.ntype := AppCanvas.PUMP;
                            AppCanvas.data :=
                              {| AppCanvas.area := None;
                                 AppCanvas.delay := None;
                                 AppCanvas.efficiency := Some (num 100) |} |}
                         0))
           eq_refl ltac:(qc_le) ltac:(qc_le)).
Defined.

Lemma checkPlans_keeps_witness :
  In Example.plan (fst (App.checkPlans (num 0.1) (Example.plan :: nil))).
Proof.
  exact (proj2 (proj2 (proj2 (proj2
           (checkPlans_keeps (num 0.1) (Example.plan :: nil)))))
           Example.plan (or_introl eq_refl) ltac:(vm_compute; reflexivity)).
Defined.

Lemma deletePlan_removes_witness :
  sortedPlans
    (App.plans (App.store (App.deletePlan "1" Example.beforeFiring))).
Proof.
  exact (proj2 (deletePlan_removes "1" Example.beforeFiring)
           ltac:(unfold sortedPlans; vm_compute; repeat constructor)).
Defined.

Lemma pushHistory_bounded_witness :
  App.pushHistory Sample.sample nil = (nil ++ Sample.sample :: nil)%list.
Proof.
  exact (proj1 (proj2 (proj2 (pushHistory_bounded Sample.sample Sample.sample
                                nil)))
           ltac:(cbn; lia)).
Defined.

Lemma canvas_pushHistory_bounded_witness :
  AppCanvas.pushHistory Sample.sample nil
  = (nil ++ Sample.sample :: nil)%list.
Proof.
  exact (proj2 (proj2 (canvas_pushHistory_bounded Sample.sample Sample.sample
                         nil))
           ltac:(cbn; lia)).
Defined.

Lemma handleEndConnect_simple_witness :
  NoDup (map ends (AppCanvas.edges
                     (AppCanvas.handleEndConnect "e5" (Some "n1"%string) "n3"
                        AppCanvas.initialReact))).
Proof.
  exact (proj2 (proj2 (proj2 (handleEndConnect_simple "e5"
                                (Some "n1"%string) "n3"
                                AppCanvas.initialReact)))
           ltac:(cbn; repeat (apply NoDup_cons;
                              [cbn [In]; intuition discriminate|]);
                 apply NoDup_nil)).
Defined.

Lemma deleteNode_no_dangling_witness :
  noDangling (AppCanvas.deleteNode "n3" AppCanvas.initialReact).
Proof.
  exact (proj2 (proj2 (deleteNode_no_dangling "n3" AppCanvas.initialReact))
           ltac:(unfold noDangling; cbn;
                 repeat (apply Forall_cons;
                         [split; cbn [In];
                          repeat (first [left; reflexivity|right])|]);
                 apply Forall_nil)).
Defined.
